(** * DelayDaemon: a shallow embedding of [main.c] and its verified properties

    The program grabs a Linux input device, delays every event by a fixed or
    random time and re-emits it on a uinput clone.  This development embeds
    the delay model ([randn], [calculate_delay]), the capture loop of [main]
    with [get_event], the timer thread [invoke_delayed_evdev_event], the FIFO
    listener ([init_fifo], [handle_fifo]) and the event log
    ([append_to_vector], [write_event_log], [onExit]).

    Conventions.  C integers are [Z] with the wrap-around of their width
    written out ([CInt.wrap]); [double] is IEEE 754 binary64 as specified by
    [SpecFloat]; what the kernel, libc and libevdev decide (the random
    generator, libm, the replies of the source device, the contents of freshly
    allocated memory, the file system) is either a section variable or part of
    the explicit process state. *)

From Stdlib Require Import ZArith Lia List Bool Ascii String.
From Stdlib Require Import Decimal DecimalString DecimalN DecimalZ.
From Stdlib Require Import Floats.SpecFloat Floats.FloatOps.
From stdpp Require Import base option list strings gmap.

Open Scope Z_scope.

(** ** C integer arithmetic *)

Module CInt.

(** Two's complement reduction of [z] to a signed [w]-bit integer. *)
Definition wrap (w : Z) (z : Z) : Z :=
  (z + 2 ^ (w - 1)) mod 2 ^ w - 2 ^ (w - 1).

(** Reduction to an unsigned [w]-bit integer. *)
Definition uwrap (w : Z) (z : Z) : Z := z mod 2 ^ w.

Definition INT_MAX : Z := 2147483647.
Definition INT_MIN : Z := -2147483648.

Definition to_int (z : Z) : Z := wrap 32 z.
Definition to_long (z : Z) : Z := wrap 64 z.
Definition to_ulong (z : Z) : Z := uwrap 64 z.
Definition to_u16 (z : Z) : Z := uwrap 16 z.
Definition to_uint (z : Z) : Z := uwrap 32 z.

Definition is_int (z : Z) : Prop := INT_MIN <= z <= INT_MAX.

(** C99 [%]: the remainder of the division that truncates toward zero. *)
Definition rem (a b : Z) : Z := Z.rem a b.

(** C99 [/] on integers. *)
Definition div (a b : Z) : Z := Z.quot a b.

End CInt.

(** ** IEEE 754 binary64, the C [double] *)

Module Dbl.

Definition double : Type := spec_float.

Definition add : double -> double -> double := SFadd prec emax.
Definition mul : double -> double -> double := SFmul prec emax.
Definition div : double -> double -> double := SFdiv prec emax.
Definition sqrt : double -> double := SFsqrt prec emax.

(** Conversion of an integer, [(double) n]; exact below 2^53. *)
Definition of_Z (n : Z) : double := binary_normalize prec emax n 0 false.

(** [x >= y], [x == y], [x > y], [x < y]: all false on NaN. *)
Definition ge (x y : double) : bool := SFleb y x.
Definition eq (x y : double) : bool := SFeqb x y.
Definition gt (x y : double) : bool := SFltb y x.
Definition lt (x y : double) : bool := SFltb x y.

(** The integer part of a finite double, rounded toward zero. *)
Definition trunc (s : bool) (m : positive) (e : Z) : Z :=
  let a := if 0 <=? e then Z.pos m * 2 ^ e else Z.pos m / 2 ^ (- e) in
  if s then - a else a.

(** Conversion to [int].  C leaves the conversion of NaN, an infinity or a
    value outside [int] undefined; this is what x86-64's [cvttsd2si] stores
    there, the "integer indefinite" value [INT_MIN]. *)
Definition to_int (x : double) : Z :=
  match x with
  | S754_zero _ => 0
  | S754_finite s m e =>
      let t := trunc s m e in
      if (CInt.INT_MIN <=? t) && (t <=? CInt.INT_MAX) then t else CInt.INT_MIN
  | S754_infinity _ | S754_nan => CInt.INT_MIN
  end.

End Dbl.

Abbreviation double := Dbl.double.

(** ** Formatting of integers, as [printf]'s [%d], [%i], [%li] and [%lu] *)

Module Fmt.

(** The decimal digits of [z], with a leading [-] when negative. *)
Definition dec (z : Z) : string := NilEmpty.string_of_int (Z.to_int z).

Definition nl : string := String (ascii_of_nat 10) EmptyString.

End Fmt.

(** ** The delay model: [randn] and [calculate_delay] *)

(** [RAND_MAX] of glibc's <stdlib.h>. *)
Definition RAND_MAX : Z := 2147483647.

(** The values of the enumeration [distribution]. *)
Definition linear : Z := 0.
Definition normal : Z := 1.

Section DelayModel.

(** The state of libc's generator and [rand()], which returns the next
    number and the next state. *)
Variable rng : Type.
Variable rand : rng -> Z * rng.

(** libm's [log] and [pow]. *)
Variable log : double -> double.
Variable pow : double -> double -> double.

(** The generator's state with the [static] variables of [randn]. *)
Record rstate : Type := RState {
  gen : rng;
  call : Z;
  X1 : double;
  X2 : double
}.

(** [-1 + ((double) rand () / RAND_MAX) * 2] *)
Definition unit_draw (r : Z) : double :=
  Dbl.add (Dbl.of_Z (-1))
          (Dbl.mul (Dbl.div (Dbl.of_Z r) (Dbl.of_Z RAND_MAX)) (Dbl.of_Z 2)).

(** The [do ... while (W >= 1 || W == 0)] loop of [randn]: [Some] of the
    accepted [U1], [U2], [W] and the generator after them, [None] when
    [fuel] rounds did not accept a pair. *)
Fixpoint polar_loop (fuel : nat) (g : rng) : option (double * double * double * rng) :=
  match fuel with
  | O => None
  | S fuel' =>
      let '(r1, g1) := rand g in
      let U1 := unit_draw r1 in
      let '(r2, g2) := rand g1 in
      let U2 := unit_draw r2 in
      let W := Dbl.add (pow U1 (Dbl.of_Z 2)) (pow U2 (Dbl.of_Z 2)) in
      if Dbl.ge W (Dbl.of_Z 1) || Dbl.eq W (Dbl.of_Z 0)
      then polar_loop fuel' g2
      else Some (U1, U2, W, g2)
  end.

(** [!call] on an [int]. *)
Definition lnot (c : Z) : Z := if c =? 0 then 1 else 0.

(** [int randn (double mu, double sigma)]: the value returned, converted to
    the function's return type [int]. *)
Definition randn (fuel : nat) (mu sigma : double) (s : rstate) : option (Z * rstate) :=
  if call s =? 1
  then Some (Dbl.to_int (Dbl.add mu (Dbl.mul sigma (X2 s))),
             RState (gen s) (lnot (call s)) (X1 s) (X2 s))
  else
    match polar_loop fuel (gen s) with
    | None => None
    | Some (U1, U2, W, g) =>
        let mult := Dbl.sqrt (Dbl.div (Dbl.mul (Dbl.of_Z (-2)) (log W)) W) in
        let x1 := Dbl.mul U1 mult in
        let x2 := Dbl.mul U2 mult in
        Some (Dbl.to_int (Dbl.add mu (Dbl.mul sigma x1)),
              RState g (lnot (call s)) x1 x2)
    end.

(** The draw that follows [n] earlier ones: [randn] called [n + 1] times in
    a row from the state [s], with the value and the state of the last
    call. *)
Fixpoint nth_draw (inner : nat) (mu sigma : double) (n : nat) (s : rstate)
  : option (Z * rstate) :=
  match n with
  | O => randn inner mu sigma s
  | S n' =>
      match randn inner mu sigma s with
      | None => None
      | Some (_, s') => nth_draw inner mu sigma n' s'
      end
  end.

(** The [while (x < min || x > max) x = randn(mu, sigma);] loop of
    [calculate_delay]; [inner] is the fuel of each [randn]. *)
Fixpoint redraw_loop (inner fuel : nat) (mu sigma : double) (min max x : Z) (s : rstate)
  : option (Z * rstate) :=
  if (x <? min) || (x >? max)
  then match fuel with
       | O => None
       | S fuel' =>
           match randn inner mu sigma s with
           | None => None
           | Some (x', s') => redraw_loop inner fuel' mu sigma min max x' s'
           end
       end
  else Some (x, s).

(** [int calculate_delay (int min, int max)], reading the globals
    [distribution], [mu] and [sigma]: the delay, the state afterwards and
    what was printed.  Signed overflow is reduced as gcc's code for x86-64
    reduces it. *)
Definition calculate_delay (fuel : nat) (distribution : Z) (mu sigma : double)
           (min max : Z) (s : rstate) : option (Z * rstate * list string) :=
  if min =? max then Some (min, s, [])
  else if distribution =? linear then
    let '(r, g) := rand (gen s) in
    Some (CInt.to_int (min + CInt.rem r (CInt.to_int (max - min))),
          RState g (call s) (X1 s) (X2 s), [])
  else if distribution =? normal then
    match redraw_loop fuel fuel mu sigma min max (-1) s with
    | None => None
    | Some (x, s') => Some (x, s', [(Fmt.dec x ++ Fmt.nl)%string])
    end
  else Some (0, s, []).

End DelayModel.

Arguments RState {rng}.
Arguments gen {rng}.
Arguments call {rng}.
Arguments X1 {rng}.
Arguments X2 {rng}.

(** ** Events, the log vector and the environment of the process *)

(** Event types and codes of <linux/input-event-codes.h>. *)
Definition EV_SYN : Z := 0.
Definition EV_KEY : Z := 1.
Definition EV_REL : Z := 2.
Definition EV_ABS : Z := 3.
Definition EV_MSC : Z := 4.
Definition SYN_REPORT : Z := 0.

(** Read statuses of <libevdev/libevdev.h> and the error number of <errno.h>. *)
Definition LIBEVDEV_READ_STATUS_SUCCESS : Z := 0.
Definition LIBEVDEV_READ_STATUS_SYNC : Z := 1.
Definition ENODEV : Z := 19.

(** [struct input_event]: [time.tv_sec], [time.tv_usec] ([long]), [type] and
    [code] ([__u16]), [value] ([__s32]). *)
Record input_event : Type := InputEvent {
  tv_sec : Z;
  tv_usec : Z;
  ie_type : Z;
  ie_code : Z;
  ie_value : Z
}.

(** [delayed_event]: [fd], [type], [code], [value] are [int], [delay] is
    [long], [timestamp] is [unsigned long]. *)
Record delayed_event : Type := DelayedEvent {
  fd : Z;
  type : Z;
  code : Z;
  value : Z;
  delay : Z;
  timestamp : Z
}.

(** [event_vector]: [events] holds the [used] slots written so far, [size] is
    the allocated capacity. *)
Record event_vector : Type := EventVector {
  size : Z;
  events : list delayed_event
}.

Definition used (v : event_vector) : Z := Z.of_nat (length (events v)).

Definition init_vector (n : Z) : event_vector := EventVector n [].

(** [append_to_vector]: the capacity doubles when it is used up ([main] starts
    from capacity 10, so the doubled capacity always has room). *)
Definition append_to_vector (v : event_vector) (e : delayed_event) : event_vector :=
  let size' := if used v >=? size v then size v * 2 else size v in
  EventVector size' (events v ++ [e]).

Definition free_vector (v : event_vector) : event_vector := EventVector 0 [].

(** One answer of [libevdev_next_event]: its return code and the event it
    stored through the pointer, if it stored one. *)
Record reply : Type := Reply {
  rc : Z;
  fetched : option input_event
}.

Definition store (r : reply) (e : input_event) : input_event :=
  match fetched r with
  | Some e' => e'
  | None => e
  end.

(** The file system: regular files with their text, FIFOs and directories,
    each under the path that names it.  A file has one path (no links, and
    no second spelling through [.], [..] or doubled slashes), and the process
    may write wherever it goes: permissions are not modelled. *)
Inductive node : Type :=
  | File (text : string)
  | Fifo
  | Dir.

(** What a thread or the process does to the outside. *)
Inductive action : Type :=
  | Usleep (usec : Z)
  | UinputWrite (ty co va : Z)
  | Printf (s : string)
  | PthreadExit.

(** How far a run of the process got. *)
Inductive status : Type :=
  | Running          (* blocked in a read, waiting for the next input *)
  | Returned (c : Z) (* [main] returned [c] *)
  | Exited (c : Z)   (* [exit (c)] was called *)
  | Hung             (* a loop of [calculate_delay] did not finish within its fuel *)
  | Undefined.       (* the C standard or POSIX gives the step no meaning *)

(** The messages of glibc's [strerror] on Linux, by error number. *)
Definition sys_errlist : list (Z * string) :=
  [(0, "Success"); (1, "Operation not permitted"); (2, "No such file or directory");
   (3, "No such process"); (4, "Interrupted system call"); (5, "Input/output error");
   (6, "No such device or address"); (7, "Argument list too long");
   (8, "Exec format error"); (9, "Bad file descriptor"); (10, "No child processes");
   (11, "Resource temporarily unavailable"); (12, "Cannot allocate memory");
   (13, "Permission denied"); (14, "Bad address"); (15, "Block device required");
   (16, "Device or resource busy"); (17, "File exists");
   (18, "Invalid cross-device link"); (19, "No such device"); (20, "Not a directory");
   (21, "Is a directory"); (22, "Invalid argument");
   (23, "Too many open files in system"); (24, "Too many open files");
   (25, "Inappropriate ioctl for device"); (26, "Text file busy");
   (27, "File too large"); (28, "No space left on device"); (29, "Illegal seek");
   (30, "Read-only file system"); (31, "Too many links"); (32, "Broken pipe");
   (33, "Numerical argument out of domain"); (34, "Numerical result out of range");
   (35, "Resource deadlock avoided"); (36, "File name too long");
   (37, "No locks available"); (38, "Function not implemented");
   (39, "Directory not empty"); (40, "Too many levels of symbolic links");
   (42, "No message of desired type"); (43, "Identifier removed");
   (44, "Channel number out of range"); (45, "Level 2 not synchronized");
   (46, "Level 3 halted"); (47, "Level 3 reset"); (48, "Link number out of range");
   (49, "Protocol driver not attached"); (50, "No CSI structure available");
   (51, "Level 2 halted"); (52, "Invalid exchange");
   (53, "Invalid request descriptor"); (54, "Exchange full"); (55, "No anode");
   (56, "Invalid request code"); (57, "Invalid slot"); (59, "Bad font file format");
   (60, "Device not a stream"); (61, "No data available"); (62, "Timer expired");
   (63, "Out of streams resources"); (64, "Machine is not on the network");
   (65, "Package not installed"); (66, "Object is remote");
   (67, "Link has been severed"); (68, "Advertise error"); (69, "Srmount error");
   (70, "Communication error on send"); (71, "Protocol error");
   (72, "Multihop attempted"); (73, "RFS specific error"); (74, "Bad message");
   (75, "Value too large for defined data type"); (76, "Name not unique on network");
   (77, "File descriptor in bad state"); (78, "Remote address changed");
   (79, "Can not access a needed shared library");
   (80, "Accessing a corrupted shared library");
   (81, ".lib section in a.out corrupted");
   (82, "Attempting to link in too many shared libraries");
   (83, "Cannot exec a shared library directly");
   (84, "Invalid or incomplete multibyte or wide character");
   (85, "Interrupted system call should be restarted"); (86, "Streams pipe error");
   (87, "Too many users"); (88, "Socket operation on non-socket");
   (89, "Destination address required"); (90, "Message too long");
   (91, "Protocol wrong type for socket"); (92, "Protocol not available");
   (93, "Protocol not supported"); (94, "Socket type not supported");
   (95, "Operation not supported"); (96, "Protocol family not supported");
   (97, "Address family not supported by protocol"); (98, "Address already in use");
   (99, "Cannot assign requested address"); (100, "Network is down");
   (101, "Network is unreachable"); (102, "Network dropped connection on reset");
   (103, "Software caused connection abort"); (104, "Connection reset by peer");
   (105, "No buffer space available");
   (106, "Transport endpoint is already connected");
   (107, "Transport endpoint is not connected");
   (108, "Cannot send after transport endpoint shutdown");
   (109, "Too many references: cannot splice"); (110, "Connection timed out");
   (111, "Connection refused"); (112, "Host is down"); (113, "No route to host");
   (114, "Operation already in progress"); (115, "Operation now in progress");
   (116, "Stale file handle"); (117, "Structure needs cleaning");
   (118, "Not a XENIX named type file"); (119, "No XENIX semaphores available");
   (120, "Is a named type file"); (121, "Remote I/O error");
   (122, "Disk quota exceeded"); (123, "No medium found"); (124, "Wrong medium type");
   (125, "Operation canceled"); (126, "Required key not available");
   (127, "Key has expired"); (128, "Key has been revoked");
   (129, "Key was rejected by service"); (130, "Owner died");
   (131, "State not recoverable"); (132, "Operation not possible due to RF-kill");
   (133, "Memory page has hardware error")].

(** [strerror (e)]: the message of the table, and glibc's answer to a number
    the table does not hold. *)
Definition strerror (e : Z) : string :=
  match List.find (fun row => fst row =? e) sys_errlist with
  | Some row => snd row
  | None => "Unknown error " +:+ Fmt.dec e
  end.

(** The global configuration variables. *)
Record config : Type := Config {
  min_delay_click : Z;
  max_delay_click : Z;
  min_delay_move : Z;
  max_delay_move : Z;
  distribution : Z;
  mu : double;
  sigma : double
}.

(** [virtual_fd] keeps its initial value: [init_virtual_input] is never called. *)
Definition virtual_fd : Z := -1.

Definition log_file : string := "event_log.csv".

(** ** The event log: [write_event_log] *)

Definition header : string := "timestamp;delay;type;value;code" +:+ Fmt.nl.

(** One [fprintf (file, "%lu;%li;%i;%i;%i\n", ...)] of [write_event_log]. *)
Definition log_line (e : delayed_event) : string :=
  Fmt.dec (timestamp e) +:+ ";" +:+ Fmt.dec (delay e) +:+ ";" +:+
  Fmt.dec (type e) +:+ ";" +:+ Fmt.dec (value e) +:+ ";" +:+
  Fmt.dec (code e) +:+ Fmt.nl.

(** [access (path, F_OK) == 0] *)
Definition access (path : string) (fs : gmap string node) : bool :=
  match fs !! path with
  | Some _ => true
  | None => false
  end.

(** The [for] loop of [write_event_log] on the stream opened for appending. *)
Definition fprintf_events (l : list delayed_event) (text : string) : string :=
  fold_left (fun t e => t +:+ log_line e) l text.

(** [write_event_log]: [None] when [log_file] names a directory or a FIFO,
    for which [fopen] gives no stream to write to. *)
Definition write_event_log (v : event_vector) (fs : gmap string node)
  : option (event_vector * gmap string node) :=
  let fs1 := if access log_file fs then fs else <[log_file := File header]> fs in
  match fs1 !! log_file with
  | Some (File text) =>
      Some (free_vector v, <[log_file := File (fprintf_events (events v) text)]> fs1)
  | _ => None
  end.

(** ** Reading the source device: [get_event] *)

(** The loop [while (rc == LIBEVDEV_READ_STATUS_SYNC)] of [get_event], on the
    answers [dev] the device will give: [None] when they run out, which is a
    read that blocks for ever. *)
Fixpoint resync (dev : list reply) (e : input_event) : option (Z * input_event * list reply) :=
  match dev with
  | [] => None
  | r :: dev' =>
      if rc r =? LIBEVDEV_READ_STATUS_SYNC
      then resync dev' (store r e)
      else Some (rc r, store r e, dev')
  end.

(** [get_event]: the value returned, the event buffer, the answers left and
    what was printed. *)
Definition get_event (dev : list reply) (e : input_event)
  : option (Z * input_event * list reply * list string) :=
  match dev with
  | [] => None
  | r :: dev' =>
      let first :=
        if rc r =? LIBEVDEV_READ_STATUS_SYNC
        then (resync dev' (store r e),
              ["Warning, syn dropped: (" +:+ Fmt.dec (- rc r) +:+ ") " +:+
               strerror (- rc r) +:+ Fmt.nl])
        else (Some (rc r, store r e, dev'), []) in
      match first with
      | (None, _) => None
      | (Some (rc', e', dev''), out) =>
          if rc' =? - ENODEV
          then Some (-1, e', dev'',
                     out ++ ["Device disconnected: (" +:+ Fmt.dec (- rc') +:+ ") " +:+
                             strerror (- rc') +:+ Fmt.nl])
          else Some (1, e', dev'', out)
      end
  end.

(** What [get_event] prints when the device is gone. *)
Definition disconnected_msg : string :=
  "Device disconnected: (19) No such device" +:+ Fmt.nl.

(** ** The timer thread: [invoke_delayed_evdev_event] *)

(** What the thread started for [e] does, [rc1] being the result of its first
    [libevdev_uinput_write_event]. *)
Definition invoke_delayed_evdev_event (e : delayed_event) (rc1 : Z) : list action :=
  let eventDelay := CInt.to_int (delay e) in
  [Usleep (CInt.to_uint (CInt.to_int (eventDelay * 1000)));
   UinputWrite (type e) (code e) (value e)] ++
  (if rc1 =? 0 then []
   else [Printf ("Failed to write uinput event: " +:+ strerror (- rc1) +:+ Fmt.nl)]) ++
  [UinputWrite EV_SYN SYN_REPORT 0; PthreadExit].

(** The events a list of actions writes to the uinput device, in order. *)
Definition uinput_writes (l : list action) : list (Z * Z * Z) :=
  flat_map (fun a => match a with
                     | UinputWrite t c v => [(t, c, v)]
                     | _ => []
                     end) l.

(** ** The FIFO listener: [sscanf], [handle_fifo], [init_fifo] *)

Module Scan.

(** [isspace] in the C locale. *)
Definition isspace (c : ascii) : bool :=
  let n := Z.of_nat (nat_of_ascii c) in
  (n =? 32) || ((9 <=? n) && (n <=? 13)).

Definition digit_val (c : ascii) : option Z :=
  let n := Z.of_nat (nat_of_ascii c) in
  if (48 <=? n) && (n <=? 57) then Some (n - 48) else None.

Fixpoint skip_space (s : list ascii) : list ascii :=
  match s with
  | c :: s' => if isspace c then skip_space s' else s
  | [] => []
  end.

(** The longest run of digits at the head of [s], read in base ten. *)
Fixpoint scan_digits (acc : Z) (s : list ascii) : Z * list ascii :=
  match s with
  | c :: s' =>
      match digit_val c with
      | Some d => scan_digits (10 * acc + d) s'
      | None => (acc, s)
      end
  | [] => (acc, [])
  end.

(** glibc reads the digits as [strtol] does, which stops at the ends of
    [long], and stores the result in the [int]. *)
Definition store_int (n : Z) : Z :=
  CInt.to_int (Z.max (- 2 ^ 63) (Z.min (2 ^ 63 - 1) n)).

Inductive conv : Type :=
  | Conv (v : Z) (rest : list ascii)
  | MatchFail
  | InputFail.

(** One [%d]: white space is skipped, then an optional sign and at least
    one digit are read.  The end of the string before any character of the
    number is an input failure; a sign with no digit after it, be it at the
    end of the string, is a matching failure as any other text that is no
    number. *)
Definition scan_d (s : list ascii) : conv :=
  match skip_space s with
  | [] => InputFail
  | c :: s' =>
      let neg := Ascii.eqb c "-" in
      let body := if neg || Ascii.eqb c "+" then s' else c :: s' in
      match body with
      | [] => MatchFail
      | d :: _ =>
          match digit_val d with
          | None => MatchFail
          | Some _ =>
              let '(n, rest) := scan_digits 0 body in
              Conv (store_int (if neg then - n else n)) rest
          end
      end
  end.

Definition EOF : Z := -1.

(** [sscanf (s, "%d %d %d %d", &a, &b, &c, &d)]: the value returned and
    the four variables, those not assigned keeping their old values.  The
    white space between two [%d] is skipped by the second. *)
Definition sscanf_4d (s : list ascii) (old : Z * Z * Z * Z) : Z * (Z * Z * Z * Z) :=
  let '(a0, b0, c0, d0) := old in
  match scan_d s with
  | InputFail => (EOF, old)
  | MatchFail => (0, old)
  | Conv a r1 =>
      match scan_d r1 with
      | Conv b r2 =>
          match scan_d r2 with
          | Conv c r3 =>
              match scan_d r3 with
              | Conv d _ => (4, (a, b, c, d))
              | _ => (3, (a, b, c, d0))
              end
          | _ => (2, (a, b, c0, d0))
          end
      | _ => (1, (a, b0, c0, d0))
      end
  end.

Definition NUL : ascii := ascii_of_nat 0.

(** The C string that starts an array: its characters before the first
    [NUL]; [None] when the array holds no [NUL]. *)
Fixpoint c_str (a : list ascii) : option (list ascii) :=
  match a with
  | [] => None
  | c :: a' =>
      if Ascii.eqb c NUL then Some []
      else match c_str a' with
           | Some s => Some (c :: s)
           | None => None
           end
  end.

End Scan.

(** A store to one of the four delay variables. *)
Inductive store_op : Type :=
  | SetMinClick (v : Z)
  | SetMaxClick (v : Z)
  | SetMinMove (v : Z)
  | SetMaxMove (v : Z).

Definition apply_store (c : config) (o : store_op) : config :=
  match o with
  | SetMinClick v =>
      Config v (max_delay_click c) (min_delay_move c) (max_delay_move c)
             (distribution c) (mu c) (sigma c)
  | SetMaxClick v =>
      Config (min_delay_click c) v (min_delay_move c) (max_delay_move c)
             (distribution c) (mu c) (sigma c)
  | SetMinMove v =>
      Config (min_delay_click c) (max_delay_click c) v (max_delay_move c)
             (distribution c) (mu c) (sigma c)
  | SetMaxMove v =>
      Config (min_delay_click c) (max_delay_click c) (min_delay_move c) v
             (distribution c) (mu c) (sigma c)
  end.

Definition apply_stores (c : config) (l : list store_op) : config :=
  fold_left apply_store l c.

(** The stores [handle_fifo] performs, in program order, once [sscanf]
    returned 4: the four assignments, then the two conditional ones that
    "make sure max >= min". *)
Definition set_delay_times (b : Z * Z * Z * Z) : list store_op :=
  let '(b_min_click, b_max_click, b_min_move, b_max_move) := b in
  [SetMinClick b_min_click; SetMaxClick b_max_click;
   SetMinMove b_min_move; SetMaxMove b_max_move] ++
  (if b_max_click <? b_min_click then [SetMaxClick b_min_click] else []) ++
  (if b_max_move <? b_min_move then [SetMaxMove b_min_move] else []).

(** The local variables of [handle_fifo]: the 80 characters of [buffer] and
    the four [buffer_..._delay_...] integers. *)
Record listener : Type := Listener {
  buffer : list ascii;
  parsed : Z * Z * Z * Z
}.

(** [read (fifo_fd, buffer, 80)] of a message [msg]: the number of bytes
    read and the buffer, whose bytes beyond them keep their contents. *)
Definition read_fifo (msg : list ascii) (buf : list ascii) : Z * list ascii :=
  let got := firstn 80 msg in
  (Z.of_nat (length got), got ++ skipn (length got) buf).

(** One round of the [while (1)] of [handle_fifo], for the message a writer
    left in the FIFO (the empty message stands for a writer that wrote
    nothing, or a failed [read]): the configuration, the locals and the
    output.  [None] when [buffer] holds no [NUL] for [sscanf] to stop at. *)
Definition handle_fifo_round (msg : list ascii) (c : config) (l : listener)
  : option (config * listener * list string) :=
  let '(n, buf) := read_fifo msg (buffer l) in
  if n <=? 0 then Some (c, Listener buf (parsed l), [])
  else
    match Scan.c_str buf with
    | None => None
    | Some s =>
        let '(k, b) := Scan.sscanf_4d s (parsed l) in
        if k =? 4 then
          let c' := apply_stores c (set_delay_times b) in
          Some (c', Listener buf b,
                ["set new values: " +:+ Fmt.dec (min_delay_click c') +:+ " " +:+
                 Fmt.dec (max_delay_click c') +:+ " " +:+
                 Fmt.dec (min_delay_move c') +:+ " " +:+
                 Fmt.dec (max_delay_move c') +:+ Fmt.nl])
        else
          Some (c, Listener buf b,
                ["could not set new delays - bad data structure" +:+ Fmt.nl])
    end.

(** The output [o] of a round put in front of what the later rounds give. *)
Definition then_out (o : list string) (r : option (config * listener * list string))
  : option (config * listener * list string) :=
  match r with
  | Some (c, l, o') => Some (c, l, o ++ o')
  | None => None
  end.

(** [handle_fifo] on the messages that arrive, one per [open]; after the last
    of them the thread is blocked in [open], waiting for the next. *)
Fixpoint handle_fifo (msgs : list (list ascii)) (c : config) (l : listener)
  : option (config * listener * list string) :=
  match msgs with
  | [] => Some (c, l, [])
  | msg :: msgs' =>
      match handle_fifo_round msg c l with
      | None => None
      | Some (c1, l1, out1) => then_out out1 (handle_fifo msgs' c1 l1)
      end
  end.

(** [unlink (path)]: a directory is not removed. *)
Definition unlink (path : string) (fs : gmap string node) : gmap string node :=
  match fs !! path with
  | Some Dir => fs
  | _ => delete path fs
  end.

(** The names of a path, which [/] separates. *)
Fixpoint components (path : string) : list string :=
  match path with
  | EmptyString => [EmptyString]
  | String c rest =>
      if Ascii.eqb c "/" then EmptyString :: components rest
      else match components rest with
           | [] => [String c EmptyString]
           | n :: ns => String c n :: ns
           end
  end.

(** The directory part of a path: what precedes its last [/]; [None] for a
    name without [/], which lies in the working directory. *)
Fixpoint dirname (path : string) : option string :=
  match path with
  | EmptyString => None
  | String c rest =>
      match dirname rest with
      | Some d => Some (String c d)
      | None => if Ascii.eqb c "/" then Some EmptyString else None
      end
  end.

(** The last name of a path. *)
Definition basename (path : string) : string := List.last (components path) EmptyString.

(** What may name a new file: not the empty name, nor [.] or [..]. *)
Definition is_name (s : string) : bool :=
  negb (String.eqb s EmptyString) && negb (String.eqb s ".") && negb (String.eqb s "..").

(** The directory of [path] is there: the working directory, the root, or a
    directory of the file system. *)
Definition dir_exists (fs : gmap string node) (path : string) : bool :=
  match dirname path with
  | None => true
  | Some EmptyString => true
  | Some d => match fs !! d with
              | Some Dir => true
              | _ => false
              end
  end.


(** [mkfifo (path, 0666)]: [-1] when the path exists ([EEXIST]), when its
    last name is empty, [.] or [..], and when its directory is missing or is
    no directory ([ENOENT], [ENOTDIR]). *)
Definition mkfifo (path : string) (fs : gmap string node) : Z * gmap string node :=
  match fs !! path with
  | Some _ => (-1, fs)
  | None =>
      if is_name (basename path) && dir_exists fs path
      then (0, <[path := Fifo]> fs)
      else (-1, fs)
  end.

(** [init_fifo]: the value returned, the file system, and whether the thread
    running [handle_fifo] was created. *)
Definition init_fifo (fifo_path : string) (fs : gmap string node)
  : Z * gmap string node * bool :=
  let fs1 := unlink fifo_path fs in
  let '(r, fs2) := mkfifo fifo_path fs1 in
  if r =? -1 then (0, fs2, false)
  else (1, fs2, true).

(** [strcmp (a, b)] up to what the program tests: zero exactly for equal
    strings. *)
Definition strcmp (a b : string) : Z := if String.eqb a b then 0 else 1.

(** The lines of [main] that start the FIFO, [argv] being the whole argument
    vector ([argc] its length): [Some] of the path stored in [fifo_path],
    the file system and whether the listener runs, or the value [main]
    returns at once. *)
Definition main_fifo (argv : list string) (fs : gmap string node)
  : (option string * gmap string node * bool) + Z :=
  if Z.of_nat (length argv) >? 7 then
    match argv !! 7%nat with
    | Some a7 =>
        if strcmp a7 "none" =? 0 then
          let '(ok, fs', th) := init_fifo a7 fs in
          if ok =? 0 then inr 1 else inl (Some a7, fs', th)
        else inl (None, fs, false)
    | None => inl (None, fs, false)
    end
  else inl (None, fs, false).

(** ** Reading the log back *)

Module Log.

Definition newline : ascii := ascii_of_nat 10.

(** The header without its line end, and one record without its. *)
Definition header_line : string := "timestamp;delay;type;value;code".

Definition line_body (e : delayed_event) : string :=
  Fmt.dec (timestamp e) +:+ ";" +:+ Fmt.dec (delay e) +:+ ";" +:+
  Fmt.dec (type e) +:+ ";" +:+ Fmt.dec (value e) +:+ ";" +:+ Fmt.dec (code e).

(** The text [write_event_log] prints for the events [l]. *)
Definition rows (l : list delayed_event) : string := fprintf_events l "".

(** The lines of a text, each without its line end; a last line that is not
    ended counts as well. *)
Fixpoint lines (s : string) : list string :=
  match s with
  | EmptyString => []
  | String c s' =>
      if Ascii.eqb c newline then EmptyString :: lines s'
      else match lines s' with
           | [] => [String c EmptyString]
           | l :: ls => String c l :: ls
           end
  end.

(** The fields of a line, which [sep] separates. *)
Fixpoint split_on (sep : ascii) (s : string) : list string :=
  match s with
  | EmptyString => [EmptyString]
  | String c s' =>
      if Ascii.eqb c sep then EmptyString :: split_on sep s'
      else match split_on sep s' with
           | [] => [String c EmptyString]
           | f :: fs => String c f :: fs
           end
  end.

(** A decimal field read back as a number. *)
Definition parse_dec (s : string) : option Z :=
  match NilEmpty.int_of_string s with
  | Some d => Some (Z.of_int d)
  | None => None
  end.

(** A line read back as [(timestamp, delay, type, value, code)]. *)
Definition parse_line (s : string) : option (Z * Z * Z * Z * Z) :=
  match map parse_dec (split_on ";" s) with
  | [Some ts; Some d; Some ty; Some va; Some co] => Some (ts, d, ty, va, co)
  | _ => None
  end.

(** The tuple the log keeps of an event, in the order of the header. *)
Definition record_of (e : delayed_event) : Z * Z * Z * Z * Z :=
  (timestamp e, delay e, type e, value e, code e).

(** The characters of a number in decimal. *)
Definition numeral_char (c : ascii) : bool :=
  match Scan.digit_val c with
  | Some _ => true
  | None => Ascii.eqb c "-"
  end.

Fixpoint all_chars (P : ascii -> bool) (s : string) : bool :=
  match s with
  | EmptyString => true
  | String c s' => P c && all_chars P s'
  end.

End Log.

(** ** Readers of the configuration while [handle_fifo] replaces it *)

(** The main thread evaluates [calculate_delay (min_delay_click,
    max_delay_click)] while the listener performs the stores [ops]: it loads
    [min_delay_click] after the first [i] stores and [max_delay_click] after
    the first [j].  No lock orders the two threads, so any [i] and [j] can
    occur (C does not order the evaluation of arguments either). *)
Definition click_view (ops : list store_op) (c : config) (i j : nat) : Z * Z :=
  (min_delay_click (apply_stores c (firstn i ops)),
   max_delay_click (apply_stores c (firstn j ops))).

(** The same for [calculate_delay (min_delay_move, max_delay_move)]. *)
Definition move_view (ops : list store_op) (c : config) (i j : nat) : Z * Z :=
  (min_delay_move (apply_stores c (firstn i ops)),
   max_delay_move (apply_stores c (firstn j ops))).

(** ** Messages as the specification words them *)

Module Message.





(** The configuration the specification asks for after a message with
    the integers [q]: the four values, each max raised to its min. *)
Definition replaced (c : config) (q : Z * Z * Z * Z) : config :=
  let '(a, b, m, n) := q in
  Config a (Z.max a b) m (Z.max m n) (distribution c) (mu c) (sigma c).

(** Integers written in decimal with one space between them. *)
Fixpoint join (l : list Z) : list ascii :=
  match l with
  | [] => []
  | [x] => list_ascii_of_string (Fmt.dec x)
  | x :: l' => list_ascii_of_string (Fmt.dec x) ++ " "%char :: join l'
  end.


Definition rejection : string :=
  "could not set new delays - bad data structure" +:+ Fmt.nl.

(** What [handle_fifo] prints after it has set the configuration [c]. *)
Definition accepted (c : config) : string :=
  "set new values: " +:+ Fmt.dec (min_delay_click c) +:+ " " +:+
  Fmt.dec (max_delay_click c) +:+ " " +:+
  Fmt.dec (min_delay_move c) +:+ " " +:+
  Fmt.dec (max_delay_move c) +:+ Fmt.nl.

(** Text that does not go on with a digit, and text of white space only. *)
Definition no_digit_ahead (s : list ascii) : Prop :=
  match s with
  | [] => True
  | c :: _ => Scan.digit_val c = None
  end.

Definition blank (s : list ascii) : Prop :=
  Forall (fun c => Scan.isspace c = true) s.


(** The number a run of decimal digits denotes when read after [acc]. *)
Fixpoint digits_value (acc : Z) (d : uint) : Z :=
  match d with
  | Nil => acc
  | D0 d' => digits_value (10 * acc + 0) d'
  | D1 d' => digits_value (10 * acc + 1) d'
  | D2 d' => digits_value (10 * acc + 2) d'
  | D3 d' => digits_value (10 * acc + 3) d'
  | D4 d' => digits_value (10 * acc + 4) d'
  | D5 d' => digits_value (10 * acc + 5) d'
  | D6 d' => digits_value (10 * acc + 6) d'
  | D7 d' => digits_value (10 * acc + 7) d'
  | D8 d' => digits_value (10 * acc + 8) d'
  | D9 d' => digits_value (10 * acc + 9) d'
  end.

End Message.

(** ** The parameters of the normal distribution set by [main] *)

(** [mu = (max_delay_click + min_delay_click) / 2; sigma = mu / 20;], the
    defaults taken when [argc <= 8]: an [int] division, then a [double] one. *)
Definition default_mu (min_click max_click : Z) : double :=
  Dbl.of_Z (CInt.div (CInt.to_int (max_click + min_click)) 2).

Definition default_sigma (m : double) : double := Dbl.div m (Dbl.of_Z 20).

(** [mu > max_delay_click || mu < min_delay_click], on which [main] prints
    "Illegal value for mu" and returns 1. *)
Definition illegal_mu (m : double) (min_click max_click : Z) : bool :=
  Dbl.gt m (Dbl.of_Z max_click) || Dbl.lt m (Dbl.of_Z min_click).

(** ** The process: the capture loop of [main] and [onExit] *)

Section Daemon.

Variable rng : Type.
Variable rand : rng -> Z * rng.
Variable log : double -> double.
Variable pow : double -> double -> double.

(** The globals, the local [inputEvent] of [main], the answers [dev] the
    source device has yet to give, the timer threads created so far with
    the event each was handed, the file system and the standard output. *)
Record proc : Type := Proc {
  cfg : config;
  rs : rstate rng;
  ev : event_vector;
  inputEvent : input_event;
  dev : list reply;
  threads : list delayed_event;
  fs : gmap string node;
  stdout : list string;
  fifo_path : option string;
  fifo_thread : bool
}.

(** What reaches the process while it waits in [read (fd_rtc, ...)]: the
    read returns [ret] (and [block] is what the memory [malloc] hands out
    in this round holds), or SIGINT is delivered. *)
Inductive stimulus : Type :=
  | RtcRead (ret : Z) (block : delayed_event)
  | Sigint.

(** The range [main] passes to [calculate_delay] for an event of type [t]. *)
Definition delay_range (c : config) (t : Z) : option (Z * Z) :=
  if t =? EV_KEY then Some (min_delay_click c, max_delay_click c)
  else if t =? EV_REL then Some (min_delay_move c, max_delay_move c)
  else None.

(** The body of the [if] in the capture loop: fill the allocated [block],
    compute the delay, create the thread, stamp and log the event.  [None]
    when [calculate_delay] does not return within [fuel]. *)
Definition schedule (fuel : nat) (block : delayed_event) (p : proc) : option proc :=
  let ie := inputEvent p in
  let c := cfg p in
  let computed :=
    match delay_range c (ie_type ie) with
    | Some (lo, hi) =>
        calculate_delay rng rand log pow fuel (distribution c) (mu c) (sigma c) lo hi (rs p)
    | None => Some (delay block, rs p, [])
    end in
  match computed with
  | None => None
  | Some (d, s, out) =>
      let e := DelayedEvent virtual_fd (ie_type ie) (ie_code ie) (ie_value ie)
                            d (timestamp block) in
      let stamped := DelayedEvent (fd e) (type e) (code e) (value e) (delay e)
                       (CInt.to_ulong (tv_sec ie * 1000 + CInt.div (tv_usec ie) 1000)) in
      Some (Proc c s (append_to_vector (ev p) stamped) ie (dev p)
                 (threads p ++ [e]) (fs p) (stdout p ++ out)
                 (fifo_path p) (fifo_thread p))
  end.

(** [onExit]: the handler of SIGINT.  POSIX gives [pthread_cancel] no
    meaning on [fifo_thread] when no thread was created.  The [ioctl] and the
    [close] on [virtual_fd], which is -1, fail and change nothing. *)
Definition onExit (p : proc) : status * proc :=
  match write_event_log (ev p) (fs p) with
  | None => (Undefined, p)
  | Some (v, fs1) =>
      let out := stdout p ++ ["foo"] in
      if fifo_thread p then
        let fs2 := match fifo_path p with
                   | Some path => unlink path fs1
                   | None => fs1
                   end in
        (Exited 0,
         Proc (cfg p) (rs p) v (inputEvent p) (dev p) (threads p) fs2 out
              (fifo_path p) false)
      else
        (Undefined,
         Proc (cfg p) (rs p) v (inputEvent p) (dev p) (threads p) fs1 out
              (fifo_path p) false)
  end.

(** The [while (err = read (fd_rtc, ...))] loop of [main] and its
    [return 0], on the stimuli [tr].  The process is [Running] when the
    stimuli are used up, or when the source device has no answer left for
    the blocking read of [get_event]. *)
Fixpoint capture_loop (fuel : nat) (tr : list stimulus) (p : proc) : status * proc :=
  match tr with
  | [] => (Running, p)
  | Sigint :: _ => onExit p
  | RtcRead ret block :: tr' =>
      if ret =? 0 then (Returned 0, p)
      else
        match get_event (dev p) (inputEvent p) with
        | None => (Running, p)
        | Some (err, ie, dev', out) =>
            let p1 := Proc (cfg p) (rs p) (ev p) ie dev' (threads p) (fs p)
                           (stdout p ++ out) (fifo_path p) (fifo_thread p) in
            if (err >? -1) && negb (ie_type ie =? EV_SYN) then
              match schedule fuel block p1 with
              | None => (Hung, p1)
              | Some p2 => capture_loop fuel tr' p2
              end
            else capture_loop fuel tr' p1
        end
  end.

(** The uinput device exists as long as the process holds its descriptor:
    the program never calls [libevdev_uinput_destroy], and the
    [ioctl (virtual_fd, UI_DEV_DESTROY)] of [onExit] goes to descriptor -1. *)
Definition uinput_alive (st : status) : bool :=
  match st with
  | Running | Hung => true
  | _ => false
  end.

End Daemon.

Arguments Proc {rng}.
Arguments cfg {rng}.
Arguments rs {rng}.
Arguments ev {rng}.
Arguments inputEvent {rng}.
Arguments dev {rng}.
Arguments threads {rng}.
Arguments fs {rng}.
Arguments stdout {rng}.
Arguments fifo_path {rng}.
Arguments fifo_thread {rng}.
Arguments schedule {rng}.
Arguments onExit {rng}.
Arguments capture_loop {rng}.
Arguments calculate_delay {rng}.
Arguments randn {rng}.
Arguments redraw_loop {rng}.
Arguments polar_loop {rng}.
Arguments nth_draw {rng}.

(** ** A concrete C library, on which the model runs *)

(** Stand-ins for [rand], [pow] and [log], to run the model on: they have
    the range and the shape of libc's and libm's functions, not their very
    values, so a run here shows the course the program takes and not the
    numbers a build of it prints. *)
Module Sample.

(** A linear congruential generator whose results fill [0 .. RAND_MAX],
    glibc's generator of type 0 ([random_r] with an 8-byte state), with its
    last result as the state.  It is not the generator behind glibc's
    [rand ()], which is the additive feedback generator of type 3. *)
Definition rand (state : Z) : Z * Z :=
  let val := Z.land (CInt.to_uint (state * 1103515245 + 12345)) 2147483647 in
  (val, val).

(** [pow (x, 2)], the one exponent the program uses. *)
Definition pow (x y : double) : double := Dbl.mul x x.

(** [1/(2k+1) + t2 (1/(2k+3) + t2 (...))], [n] terms of the series
    [ln ((1+t)/(1-t)) = 2 t (1 + t^2/3 + t^4/5 + ...)] with [t2 = t^2]. *)
Fixpoint series_from (k n : nat) (t2 : double) : double :=
  match n with
  | O => Dbl.of_Z 0
  | S n' =>
      Dbl.add (Dbl.div (Dbl.of_Z 1) (Dbl.of_Z (2 * Z.of_nat k + 1)))
              (Dbl.mul t2 (series_from (S k) n' t2))
  end.

(** ln 2, rounded to binary64. *)
Definition ln2 : double := S754_finite false 6243314768165359 (-53).

(** A natural logarithm for positive finite arguments: the argument is
    split as [m * 2^e] with [m] in [0.5, 1), and [ln m] is summed by the
    series above in [t = (m - 1) / (m + 1)]. *)
Definition log (x : double) : double :=
  match x with
  | S754_finite false _ _ =>
      let '(m, e) := SFfrexp prec emax x in
      let t := Dbl.div (Dbl.add m (Dbl.of_Z (-1))) (Dbl.add m (Dbl.of_Z 1)) in
      let t2 := Dbl.mul t t in
      Dbl.add (Dbl.mul (Dbl.of_Z e) ln2)
              (Dbl.mul (Dbl.mul (Dbl.of_Z 2) t) (series_from 0 30 t2))
  | S754_zero _ => S754_infinity true
  | S754_infinity false => x
  | _ => S754_nan
  end.

(** The process as [main] enters its loop: the configuration [c], the
    generator [rand] above in the state [seed], the statics of [randn] at
    zero, an empty vector of capacity 10, no thread, the file system
    [files], and the answers [d] the source device will give. *)
Definition start (c : config) (seed : Z) (files : gmap string node) (d : list reply)
  : proc Z :=
  Proc c (RState seed 0 (Dbl.of_Z 0) (Dbl.of_Z 0)) (init_vector 10)
       (InputEvent 0 0 0 0 0) d [] files [] None false.

(** [main] run with the arguments [50 50 0 0]: a constant click delay. *)
Definition constant_click : config :=
  Config 50 50 0 0 linear (default_mu 50 50) (default_sigma (default_mu 50 50)).

(** A key press, a scan code ([EV_MSC], [MSC_SCAN]) and a report marker,
    as a keyboard sends them. *)
Definition key_down : input_event := InputEvent 1700000000 250000 EV_KEY 30 1.
Definition scan_code : input_event := InputEvent 1700000000 250000 EV_MSC 4 458756.
Definition report : input_event := InputEvent 1700000000 250000 EV_SYN SYN_REPORT 0.

(** The answer of [libevdev_next_event] once the device is unplugged. *)
Definition gone : reply := Reply (- ENODEV) None.

(** Memory handed out by [malloc]: all zero, or holding an old 7 where the
    [delay] field comes to lie. *)
Definition zeroed : delayed_event := DelayedEvent 0 0 0 0 0 0.
Definition dirty : delayed_event := DelayedEvent 0 0 0 0 7 0.

Definition run (fuel : nat) (tr : list stimulus) (p : proc Z) : status * proc Z :=
  capture_loop rand log pow fuel tr p.

(** [n] rounds of the capture loop on zeroed, or on dirty, memory. *)
Definition ticks (n : nat) : list stimulus := repeat (RtcRead (-1) zeroed) n.
Definition dirty_ticks (n : nat) : list stimulus := repeat (RtcRead (-1) dirty) n.

(** The daemon started on a keyboard that sends one key press and is then
    unplugged: every later read is answered [-ENODEV]. *)
Definition unplugged (n : nat) : proc Z :=
  start constant_click 1 ∅ (Reply 0 (Some key_down) :: repeat gone n).

(** The arguments of a run with constant click delay 50, no motion delay,
    the linear distribution and [path] as the FIFO argument. *)
Definition argv (path : string) : list string :=
  ["delaydaemon"; "/dev/input/event5"; "50"; "50"; "0"; "0"; "l"; path].

(** The listener as its thread starts: the buffer and the four integers
    on a fresh, zero-filled stack. *)
Definition fresh_listener : listener := Listener (repeat Scan.NUL 80) (0, 0, 0, 0).

(** What [echo text > fifo] puts into the FIFO. *)
Definition echo (text : string) : list ascii :=
  list_ascii_of_string text ++ [ascii_of_nat 10].

(** A vector with a key press and a pointer motion, scheduled in this order. *)
Definition logged : event_vector :=
  append_to_vector
    (append_to_vector (init_vector 10)
       (DelayedEvent virtual_fd EV_KEY 30 1 50 1700000000250))
    (DelayedEvent virtual_fd EV_REL 0 (-3) 12 1700000000258).

(** The generator [rand] above in the state 1 and the statics of [randn]
    as [main] enters its loop. *)
Definition seeded : rstate Z := RState 1 0 (Dbl.of_Z 0) (Dbl.of_Z 0).

End Sample.

(** ** Observations used by the further properties *)

(** What a thread and the log record of the same event have in common. *)
Definition payload (e : delayed_event) : Z * Z * Z * Z :=
  (type e, code e, value e, delay e).

(** The time stamp [main] computes for the event in its buffer. *)
Definition stamp (ie : input_event) : Z :=
  CInt.to_ulong (tv_sec ie * 1000 + CInt.div (tv_usec ie) 1000).

(** [append_to_vector] called for each event of [l] in turn. *)
Definition append_all (v : event_vector) (l : list delayed_event) : event_vector :=
  fold_left append_to_vector l v.

(** The argument the thread of [e] passes to [usleep]. *)
Definition usleep_arg (e : delayed_event) : Z :=
  CInt.to_uint (CInt.to_int (CInt.to_int (delay e) * 1000)).

(** An answer of [libevdev_next_event] during resynchronisation: the status
    [LIBEVDEV_READ_STATUS_SYNC] with the event [e]. *)
Definition sync_reply (e : input_event) : reply :=
  Reply LIBEVDEV_READ_STATUS_SYNC (Some e).

(** What [get_event] prints when it finds events were dropped. *)
Definition syn_dropped_msg : string :=
  "Warning, syn dropped: (-1) Unknown error -1" +:+ Fmt.nl.

(** Both ranges of a configuration are in order. *)
Definition ordered (c : config) : Prop :=
  min_delay_click c <= max_delay_click c /\ min_delay_move c <= max_delay_move c.

(** The daemon with its listener running on the FIFO "none", two events in
    the vector and no log file yet. *)
Definition listening : proc Z :=
  Proc Sample.constant_click Sample.seeded Sample.logged Sample.key_down []
       [] {["none" := Fifo]} [] (Some "none") true.

(** ** The start of [main] *)

(** [EXIT_FAILURE] of <stdlib.h>. *)
Definition EXIT_FAILURE : Z := 1.

(** What the system calls and libevdev return while [main] sets up its
    devices: [open (event_handle)], [libevdev_new_from_fd], [libevdev_grab],
    [open ("/dev/uinput")], [libevdev_uinput_create_from_device],
    [open ("/dev/rtc")], and the two [ioctl] on the timer. *)
Record devices : Type := Devices {
  open_event : Z;
  new_from_fd : Z;
  grabbed : Z;
  open_uinput : Z;
  create_uinput : Z;
  open_rtc : Z;
  rtc_irqp_set : Z;
  rtc_pie_on : Z
}.

(** [init_evdev_input]: [inl] of the value returned, [inr] of the status
    passed to [exit]. *)
Definition init_evdev_input (d : devices) : Z + Z :=
  if open_event d <? 0 then inr EXIT_FAILURE
  else if new_from_fd d <? 0 then inr EXIT_FAILURE
  else if grabbed d <? 0 then inr EXIT_FAILURE
  else inl 1.

(** [init_evdev_virtual_input] *)
Definition init_evdev_virtual_input (d : devices) : Z + Z :=
  if open_uinput d <? 0 then inr EXIT_FAILURE
  else if create_uinput d <? 0 then inr EXIT_FAILURE
  else inl 1.

(** The timer set up before the loop: [Some] of the status passed to [exit]
    when a step fails. *)
Definition init_rtc (d : devices) : option Z :=
  if open_rtc d <? 0 then Some EXIT_FAILURE
  else if rtc_irqp_set d <? 0 then Some EXIT_FAILURE
  else if rtc_pie_on d <? 0 then Some EXIT_FAILURE
  else None.

(** [sscanf (arg, "%d", &var)]: the value returned and the variable. *)
Definition sscanf_d (arg : string) (var : Z) : Z * Z :=
  match Scan.scan_d (list_ascii_of_string arg) with
  | Scan.Conv v _ => (1, v)
  | Scan.MatchFail => (0, var)
  | Scan.InputFail => (Scan.EOF, var)
  end.

(** [if (sscanf (arg, "%d", &var) == EOF) var = fallback;] *)
Definition read_delay (arg : string) (var fallback : Z) : Z :=
  let '(k, v) := sscanf_d arg var in
  if k =? Scan.EOF then fallback else v.

(** [sscanf (arg, "%c", &d)] and the [switch (d)] of [main]; [d0] is what the
    uninitialised [d] holds, which an empty argument leaves. *)
Definition pick_distribution (arg : string) (d0 : ascii) : Z :=
  let d := match arg with
           | String c _ => c
           | EmptyString => d0
           end in
  if Ascii.eqb d "l" then linear
  else if Ascii.eqb d "n" then normal
  else linear.

(** Where the start of [main] ends: ready for the loop, with the
    configuration, the file system and the FIFO, or stopped. *)
Inductive started : Type :=
  | Ready (c : config) (fs : gmap string node) (path : option string) (listener_runs : bool)
  | Stopped (st : status) (fs : gmap string node).

Section Startup.

(** libc's [sscanf (arg, "%lf", &var)]: the variable afterwards. *)
Variable sscanf_lf : string -> double -> double.

(** [main] from its first line to the loop, without what it prints.  [argv]
    is the argument vector ([argc] its length); an argument read beyond it is
    a null or wild pointer handed to [sscanf]. *)
Definition main_startup (argv : list string) (d : devices) (d0 : ascii)
           (fs : gmap string node) : started :=
  let argc := Z.of_nat (length argv) in
  if argc <=? 2 then Stopped (Returned 1) fs
  else
    match init_evdev_input d with
    | inr c => Stopped (Exited c) fs
    | inl r1 =>
        if r1 =? 0 then Stopped (Returned 1) fs
        else
          match init_evdev_virtual_input d with
          | inr c => Stopped (Exited c) fs
          | inl r2 =>
              if r2 =? 0 then Stopped (Returned 1) fs
              else
                match argv !! 2%nat, argv !! 3%nat, argv !! 4%nat, argv !! 5%nat with
                | Some a2, Some a3, Some a4, Some a5 =>
                    let min_click := read_delay a2 (-1) 0 in
                    let max_click := read_delay a3 (-1) min_click in
                    let min_move := read_delay a4 (-1) 0 in
                    let max_move := read_delay a5 (-1) min_move in
                    let dist :=
                      if argc >? 6
                      then match argv !! 6%nat with
                           | Some a6 => pick_distribution a6 d0
                           | None => linear
                           end
                      else linear in
                    match main_fifo argv fs with
                    | inr c => Stopped (Returned c) fs
                    | inl (path, fs1, th) =>
                        let params :=
                          if argc >? 8
                          then match argv !! 8%nat, argv !! 9%nat with
                               | Some a8, Some a9 =>
                                   Some (sscanf_lf a8 (Dbl.of_Z (-1)),
                                         sscanf_lf a9 (Dbl.of_Z (-1)))
                               | _, _ => None
                               end
                          else Some (default_mu min_click max_click,
                                     default_sigma (default_mu min_click max_click)) in
                        match params with
                        | None => Stopped Undefined fs1
                        | Some (m, s) =>
                            if illegal_mu m min_click max_click
                            then Stopped (Returned 1) fs1
                            else
                              match init_rtc d with
                              | Some c => Stopped (Exited c) fs1
                              | None =>
                                  Ready (Config min_click max_click min_move max_move
                                                dist m s) fs1 path th
                              end
                        end
                    end
                | _, _, _, _ => Stopped Undefined fs
                end
          end
    end.

End Startup.

(** Devices that all answer with success. *)
Definition working : devices := Devices 3 0 0 4 0 5 0 0.

(** The input device and its clone could be set up: no call of
    [init_evdev_input] and [init_evdev_virtual_input] failed. *)
Definition input_ok (d : devices) : Prop :=
  0 <= open_event d /\ 0 <= new_from_fd d /\ 0 <= grabbed d /\
  0 <= open_uinput d /\ 0 <= create_uinput d.

(** The timer could be set up. *)
Definition timer_ok (d : devices) : Prop :=
  0 <= open_rtc d /\ 0 <= rtc_irqp_set d /\ 0 <= rtc_pie_on d.

(** An argument that is no number: its first character is neither white
    space, nor a sign, nor a digit. *)
Definition not_numeric (s : string) : Prop :=
  match s with
  | String c _ =>
      Scan.isspace c = false /\ Scan.digit_val c = None /\
      Ascii.eqb c "-" = false /\ Ascii.eqb c "+" = false
  | EmptyString => False
  end.

(** An argument of white space only, the empty one included. *)
Definition blank_arg (s : string) : Prop := Message.blank (list_ascii_of_string s).

(** A [sscanf] with [%lf] that converts nothing. *)
Definition unconverted : string -> double -> double := fun _ v => v.

(** Devices whose input device cannot be opened, and devices without a
    timer. *)
Definition no_input : devices := Devices (-1) 0 0 4 0 5 0 0.
Definition no_timer : devices := Devices 3 0 0 4 0 (-1) 0 0.

(** * Properties *)

(** ** Facts about C integer arithmetic *)

Module CIntFacts.
Import CInt.

Lemma to_int_id z : is_int z -> to_int z = z.
Proof.
  unfold is_int, to_int, wrap, INT_MIN, INT_MAX. intros H.
  change (2 ^ (32 - 1)) with 2147483648. change (2 ^ 32) with 4294967296.
  rewrite Z.mod_small; lia.
Qed.

Lemma to_int_range z : is_int (to_int z).
Proof.
  unfold is_int, to_int, wrap, INT_MIN, INT_MAX.
  change (2 ^ (32 - 1)) with 2147483648. change (2 ^ 32) with 4294967296.
  pose proof (Z.mod_pos_bound (z + 2147483648) 4294967296). lia.
Qed.

Lemma to_int_eq z : exists k, to_int z = z + k * 4294967296.
Proof.
  unfold to_int, wrap.
  change (2 ^ (32 - 1)) with 2147483648. change (2 ^ 32) with 4294967296.
  exists (- ((z + 2147483648) / 4294967296)).
  pose proof (Z.div_mod (z + 2147483648) 4294967296). lia.
Qed.

End CIntFacts.

(** ** The delay model *)

Section DelayFacts.

Context {rng : Type}.
Variable rand : rng -> Z * rng.
Variable log : double -> double.
Variable pow : double -> double -> double.

(** C's remainder of a non-negative number stays below the magnitude of a
    non-zero divisor. *)
Lemma rem_bound r d : 0 <= r -> d <> 0 -> 0 <= CInt.rem r d < Z.abs d.
Proof.
  intros Hr Hd. unfold CInt.rem.
  destruct (Z_lt_le_dec d 0) as [Hneg | Hpos].
  - replace d with (- (- d)) by lia. rewrite Z.rem_opp_r by lia.
    pose proof (Z.rem_bound_pos r (- d)). lia.
  - pose proof (Z.rem_bound_pos r d). lia.
Qed.

(** The width of a non-empty [int] range, reduced to [int], is not zero and
    its magnitude is at most the width. *)
Lemma width_to_int lo hi :
  CInt.is_int lo -> CInt.is_int hi -> lo < hi ->
  CInt.to_int (hi - lo) <> 0 /\ Z.abs (CInt.to_int (hi - lo)) <= hi - lo.
Proof.
  unfold CInt.is_int, CInt.INT_MIN, CInt.INT_MAX. intros Hlo Hhi Hlt.
  destruct (CIntFacts.to_int_eq (hi - lo)) as [k Hk].
  pose proof (CIntFacts.to_int_range (hi - lo)) as Hr.
  unfold CInt.is_int, CInt.INT_MIN, CInt.INT_MAX in Hr.
  rewrite Hk in *. lia.
Qed.

(** A range of one value gives that value, and neither draws nor prints. *)
Lemma calculate_delay_same fuel dist m s d (st : rstate rng) :
  calculate_delay rand log pow fuel dist m s d d st = Some (d, st, []).
Proof.
  unfold calculate_delay. now rewrite Z.eqb_refl.
Qed.

(** C7.  In the uniform ("linear") mode, for [int] bounds with [min < max]
    and a generator that keeps [rand ()] within [0 .. RAND_MAX],
    [calculate_delay] returns, with any fuel and from any state of the
    generator, an integer [x] with [min <= x < max]. *)
Theorem calculate_delay_linear_range :
  forall (fuel : nat) (m s : double) (lo hi : Z) (st : rstate rng),
    (forall g, 0 <= fst (rand g) <= RAND_MAX) ->
    CInt.is_int lo -> CInt.is_int hi -> lo < hi ->
    exists x st',
      calculate_delay rand log pow fuel linear m s lo hi st = Some (x, st', []) /\
      lo <= x < hi.
Proof.
  intros fuel m s lo hi st Hrand Hlo Hhi Hlt.
  unfold calculate_delay.
  destruct (Z.eqb_spec lo hi) as [-> | _]; [lia |].
  rewrite Z.eqb_refl.
  pose proof (Hrand (gen st)) as Hr.
  destruct (rand (gen st)) as [r g]. cbn [fst] in Hr.
  eexists _, _. split; [reflexivity |].
  destruct (width_to_int lo hi Hlo Hhi Hlt) as [Hnz Habs].
  pose proof (rem_bound r (CInt.to_int (hi - lo)) (proj1 Hr) Hnz) as Hq.
  rewrite CIntFacts.to_int_id.
  - lia.
  - unfold CInt.is_int in *. lia.
Qed.

End DelayFacts.

(** The sample generator keeps [rand ()] within [0 .. RAND_MAX]. *)
Lemma sample_rand_range (g : Z) : 0 <= fst (Sample.rand g) <= RAND_MAX.
Proof.
  unfold Sample.rand, RAND_MAX. cbn [fst].
  change 2147483647 with (Z.ones 31). rewrite Z.land_ones by lia.
  pose proof (Z.mod_pos_bound (CInt.to_uint (g * 1103515245 + 12345)) (2 ^ 31)).
  change (Z.ones 31) with (2 ^ 31 - 1). lia.
Qed.

Lemma calculate_delay_linear_range_witness :
  exists x st',
    calculate_delay Sample.rand Sample.log Sample.pow 0 linear (Dbl.of_Z 15) (Dbl.of_Z 1)
                    10 20 (RState 1 0 (Dbl.of_Z 0) (Dbl.of_Z 0))
      = Some (x, st', []) /\
    10 <= x < 20.
Proof.
  apply (calculate_delay_linear_range Sample.rand Sample.log Sample.pow 0
           (Dbl.of_Z 15) (Dbl.of_Z 1) 10 20 (RState 1 0 (Dbl.of_Z 0) (Dbl.of_Z 0))).
  - exact sample_rand_range.
  - unfold CInt.is_int, CInt.INT_MIN, CInt.INT_MAX. lia.
  - unfold CInt.is_int, CInt.INT_MIN, CInt.INT_MAX. lia.
  - lia.
Defined.

(** ** The capture loop *)

Section CaptureFacts.

Context {rng : Type}.
Variable rand : rng -> Z * rng.
Variable log : double -> double.
Variable pow : double -> double -> double.

(** What [schedule] does to the threads and to the log vector: one thread
    and one record more, both for the event in [inputEvent]. *)
Lemma schedule_spec fuel block (p p' : proc rng) :
  schedule rand log pow fuel block p = Some p' ->
  exists d,
    threads p' =
      threads p ++ [DelayedEvent virtual_fd (ie_type (inputEvent p))
                      (ie_code (inputEvent p)) (ie_value (inputEvent p))
                      d (timestamp block)] /\
    events (ev p') =
      events (ev p) ++
        [DelayedEvent virtual_fd (ie_type (inputEvent p))
           (ie_code (inputEvent p)) (ie_value (inputEvent p)) d
           (CInt.to_ulong (tv_sec (inputEvent p) * 1000 +
                           CInt.div (tv_usec (inputEvent p)) 1000))] /\
    fs p' = fs p /\ dev p' = dev p /\ inputEvent p' = inputEvent p /\
    cfg p' = cfg p /\
    (delay_range (cfg p) (ie_type (inputEvent p)) = None -> d = delay block).
Proof.
  unfold schedule. intros H.
  destruct (delay_range (cfg p) (ie_type (inputEvent p))) as [[lo hi] |] eqn:Hr.
  - destruct (calculate_delay _ _ _ _ _ _ _ _ _ _) as [[[d s] out] |]; [| discriminate].
    injection H as <-. exists d. cbn. repeat split; try reflexivity. discriminate.
  - injection H as <-. exists (delay block). cbn. repeat split; reflexivity.
Qed.

(** C6.  When the range handed to [calculate_delay] has [min == max], the
    function returns exactly that value, whatever the distribution, the
    parameters of the normal distribution and the state of the generator; it
    draws no random number (the state is unchanged) and prints nothing, so
    the result has no variance.  Hence an event whose category (key or
    relative motion) has such a range in the configuration is scheduled with
    that delay. *)
Theorem calculate_delay_constant :
  (forall (fuel : nat) (dist : Z) (m s : double) (d : Z) (st : rstate rng),
     calculate_delay rand log pow fuel dist m s d d st = Some (d, st, [])) /\
  (forall (fuel : nat) (block : delayed_event) (p : proc rng) (d : Z),
     delay_range (cfg p) (ie_type (inputEvent p)) = Some (d, d) ->
     exists p',
       schedule rand log pow fuel block p = Some p' /\
       map delay (threads p') = map delay (threads p) ++ [d] /\
       map delay (events (ev p')) = map delay (events (ev p)) ++ [d] /\
       rs p' = rs p /\ stdout p' = stdout p).
Proof.
  split; [intros; apply calculate_delay_same |].
  intros fuel block p d Hrange. unfold schedule.
  rewrite Hrange, calculate_delay_same.
  eexists. split; [reflexivity |]. cbn.
  rewrite !map_app, app_nil_r. repeat split; now destruct (rs p).
Qed.

(** [onExit] neither creates nor forgets a thread. *)
Lemma onExit_threads (p : proc rng) : threads (snd (onExit p)) = threads p.
Proof.
  unfold onExit. destruct (write_event_log _ _) as [[v fs1] |]; [| reflexivity].
  destruct (fifo_thread p); reflexivity.
Qed.

(** Every thread the capture loop creates carries an event whose type is
    not [EV_SYN]. *)
Lemma capture_loop_threads fuel tr : forall p : proc rng,
  exists new,
    threads (snd (capture_loop rand log pow fuel tr p)) = threads p ++ new /\
    Forall (fun e => type e <> EV_SYN) new.
Proof.
  induction tr as [| [ret block |] tr IH]; intros p; cbn [capture_loop].
  - exists []. rewrite app_nil_r. split; [reflexivity | constructor].
  - destruct (ret =? 0).
    { exists []. rewrite app_nil_r. split; [reflexivity | constructor]. }
    destruct (get_event (dev p) (inputEvent p)) as [[[[err ie] dev'] out] |].
    2:{ exists []. rewrite app_nil_r. split; [reflexivity | constructor]. }
    destruct ((err >? -1) && negb (ie_type ie =? EV_SYN)) eqn:Hc.
    + apply andb_true_iff in Hc as [_ Hty].
      apply negb_true_iff, Z.eqb_neq in Hty.
      destruct (schedule _ _ _ _ _ _) as [p2 |] eqn:Hs.
      * apply schedule_spec in Hs as (d & Hth & _). cbn in Hth.
        destruct (IH p2) as (new & Hnew & Hall).
        eexists (_ :: new). rewrite Hnew, Hth, <- app_assoc. cbn.
        split; [reflexivity |]. constructor; [exact Hty | exact Hall].
      * exists []. rewrite app_nil_r. split; [reflexivity | constructor].
    + destruct (IH (Proc (cfg p) (rs p) (ev p) ie dev' (threads p) (fs p)
                         (stdout p ++ out) (fifo_path p) (fifo_thread p)))
        as (new & Hnew & Hall).
      exists new. split; [exact Hnew | exact Hall].
  - exists []. rewrite app_nil_r. split; [apply onExit_threads | constructor].
Qed.

(** A first answer [-ENODEV] makes [get_event] return -1 without touching
    the later answers. *)
Lemma get_event_gone r d e :
  rc r = - ENODEV ->
  get_event (r :: d) e = Some (-1, store r e, d, [disconnected_msg]).
Proof.
  intros Hrc. unfold get_event. rewrite Hrc. reflexivity.
Qed.

(** Rounds in which the device answers [-ENODEV] change nothing but the
    answers left and the output: the loop is still running after them, and
    what ends the run is the stimulus that follows. *)
Lemma gone_rounds fuel (gone : list reply) : forall (tr : list stimulus) (p : proc rng) d,
  dev p = gone ++ d ->
  Forall (fun r => rc r = - ENODEV) gone ->
  Forall (fun s => exists ret block, s = RtcRead ret block /\ ret <> 0) tr ->
  length tr = length gone ->
  exists p',
    (forall rest,
       capture_loop rand log pow fuel (tr ++ rest) p
       = capture_loop rand log pow fuel rest p') /\
    cfg p' = cfg p /\ rs p' = rs p /\ ev p' = ev p /\ threads p' = threads p /\
    fs p' = fs p /\ dev p' = d /\
    fifo_path p' = fifo_path p /\ fifo_thread p' = fifo_thread p /\
    stdout p' = stdout p ++ repeat disconnected_msg (length gone).
Proof.
  induction gone as [| r gone IH]; intros tr p d Hdev Hgone Htr Hlen.
  - destruct tr; [| discriminate]. exists p. cbn. rewrite app_nil_r.
    repeat split; try reflexivity. exact Hdev.
  - destruct tr as [| s tr]; [discriminate |].
    inversion Hgone as [| ? ? Hr Hgone']; subst.
    inversion Htr as [| ? ? (ret & block & -> & Hret) Htr']; subst.
    set (p1 := Proc (cfg p) (rs p) (ev p) (store r (inputEvent p)) (gone ++ d)
                    (threads p) (fs p) (stdout p ++ [disconnected_msg])
                    (fifo_path p) (fifo_thread p)).
    destruct (IH tr p1 d) as (p' & Hrun & Hc & Hrs & Hev & Hth & Hfs & Hd & Hfp & Hft & Hout);
      [reflexivity | assumption | assumption | cbn in Hlen; lia |].
    exists p'. subst p1. cbn in *.
    repeat split; try assumption.
    + intros rest. rewrite <- Hrun.
      destruct (Z.eqb_spec ret 0) as [? | _]; [contradiction |].
      rewrite Hdev. cbn [app]. rewrite (get_event_gone r _ _ Hr). reflexivity.
    + rewrite Hout, <- app_assoc. reflexivity.
Qed.

(** C10.  Synchronization markers read from the source device start no
    timer thread: every thread the capture loop creates, on any stimuli and
    from any state, carries an event whose type is not [EV_SYN].  And every
    timer thread sleeps first, then writes its event to the uinput device
    and next, with nothing written to the device in between, one fresh
    [EV_SYN]/[SYN_REPORT] marker; it sleeps the event's delay in
    microseconds when that fits an [int]. *)
Theorem markers_suppressed_and_regenerated :
  (forall fuel tr (p : proc rng),
     exists new,
       threads (snd (capture_loop rand log pow fuel tr p)) = threads p ++ new /\
       Forall (fun e => type e <> EV_SYN) new) /\
  (forall e rc1,
     exists said,
       invoke_delayed_evdev_event e rc1 =
         [Usleep (CInt.to_uint (CInt.to_int (CInt.to_int (delay e) * 1000)));
          UinputWrite (type e) (code e) (value e)] ++ said ++
         [UinputWrite EV_SYN SYN_REPORT 0; PthreadExit] /\
       uinput_writes said = [] /\
       uinput_writes (invoke_delayed_evdev_event e rc1) =
         [(type e, code e, value e); (EV_SYN, SYN_REPORT, 0)]) /\
  (forall e,
     0 <= delay e -> delay e * 1000 <= CInt.INT_MAX ->
     CInt.to_uint (CInt.to_int (CInt.to_int (delay e) * 1000)) = delay e * 1000).
Proof.
  split; [| split].
  - intros. apply capture_loop_threads.
  - intros e rc1. unfold invoke_delayed_evdev_event.
    destruct (rc1 =? 0); eexists; (split; [reflexivity |]); split; reflexivity.
  - intros e H0 Hmax. unfold CInt.INT_MAX in Hmax.
    rewrite (CIntFacts.to_int_id (delay e))
      by (unfold CInt.is_int, CInt.INT_MIN, CInt.INT_MAX; lia).
    rewrite CIntFacts.to_int_id
      by (unfold CInt.is_int, CInt.INT_MIN, CInt.INT_MAX; lia).
    unfold CInt.to_uint, CInt.uwrap. apply Z.mod_small.
    change (2 ^ 32) with 4294967296. lia.
Qed.

(** C1, as the code has it.  Rounds of the capture loop in which the source
    device answers [-ENODEV] print "Device disconnected" and nothing else
    happens: no event is scheduled or logged, no file is written, the loop
    does not end and the process keeps its uinput device.  The shutdown of
    [onExit] is taken only when SIGINT arrives afterwards. *)
Theorem device_gone_keeps_capturing :
  forall fuel (gone : list reply) (tr : list stimulus) (p : proc rng) d,
    dev p = gone ++ d ->
    Forall (fun r => rc r = - ENODEV) gone ->
    Forall (fun s => exists ret block, s = RtcRead ret block /\ ret <> 0) tr ->
    length tr = length gone ->
    exists p',
      capture_loop rand log pow fuel tr p = (Running, p') /\
      uinput_alive Running = true /\
      ev p' = ev p /\ threads p' = threads p /\ fs p' = fs p /\
      stdout p' = stdout p ++ repeat disconnected_msg (length gone) /\
      capture_loop rand log pow fuel (tr ++ [Sigint]) p = onExit p'.
Proof.
  intros fuel gone tr p d Hdev Hgone Htr Hlen.
  destruct (gone_rounds fuel gone tr p d Hdev Hgone Htr Hlen)
    as (p' & Hrun & _ & _ & Hev & Hth & Hfs & _ & _ & _ & Hout).
  exists p'. repeat split; try assumption.
  - specialize (Hrun []). rewrite app_nil_r in Hrun. exact Hrun.
  - apply (Hrun [Sigint]).
Qed.

End CaptureFacts.

(** ** The capture loop on concrete runs *)

Lemma calculate_delay_constant_witness :
  exists p',
    schedule Sample.rand Sample.log Sample.pow 0 Sample.dirty
      (Proc Sample.constant_click Sample.seeded (init_vector 10) Sample.key_down
            [] [] ∅ [] None false) = Some p' /\
    map delay (threads p') = [] ++ [50] /\
    map delay (events (ev p')) = [] ++ [50] /\
    rs p' = Sample.seeded /\ stdout p' = [].
Proof.
  apply (proj2 (calculate_delay_constant Sample.rand Sample.log Sample.pow) 0%nat
           Sample.dirty
           (Proc Sample.constant_click Sample.seeded (init_vector 10) Sample.key_down
                 [] [] ∅ [] None false) 50).
  reflexivity.
Defined.

Lemma markers_suppressed_and_regenerated_witness :
  0 <= delay (DelayedEvent virtual_fd EV_KEY 30 1 50 0) /\
  delay (DelayedEvent virtual_fd EV_KEY 30 1 50 0) * 1000 <= CInt.INT_MAX /\
  CInt.to_uint (CInt.to_int (CInt.to_int (delay (DelayedEvent virtual_fd EV_KEY 30 1 50 0)) * 1000))
  = delay (DelayedEvent virtual_fd EV_KEY 30 1 50 0) * 1000.
Proof.
  split; [cbn; lia | split; [cbn; unfold CInt.INT_MAX; lia |]].
  apply (proj2 (proj2 (markers_suppressed_and_regenerated Sample.rand Sample.log Sample.pow))).
  - cbn. lia.
  - cbn. unfold CInt.INT_MAX. lia.
Defined.

Lemma device_gone_keeps_capturing_witness :
  exists p',
    Sample.run 1 (Sample.ticks 2)
      (Sample.start Sample.constant_click 1 ∅ [Sample.gone; Sample.gone])
      = (Running, p') /\
    uinput_alive Running = true /\
    ev p' = init_vector 10 /\ threads p' = [] /\ fs p' = ∅ /\
    stdout p' = [] ++ repeat disconnected_msg 2 /\
    Sample.run 1 (Sample.ticks 2 ++ [Sigint])
      (Sample.start Sample.constant_click 1 ∅ [Sample.gone; Sample.gone])
      = onExit p'.
Proof.
  apply (device_gone_keeps_capturing Sample.rand Sample.log Sample.pow 1
           [Sample.gone; Sample.gone] (Sample.ticks 2)
           (Sample.start Sample.constant_click 1 ∅ [Sample.gone; Sample.gone]) []).
  - reflexivity.
  - repeat constructor.
  - repeat (constructor; [eexists _, _; split; [reflexivity | discriminate] |]).
    constructor.
  - reflexivity.
Defined.

(** After its key press the unplugged keyboard's daemon handles one more
    round per [-ENODEV] and is then where it was. *)
Lemma unplugged_rounds n :
  exists p',
    (forall rest, Sample.run 1 (Sample.ticks (S n) ++ rest) (Sample.unplugged n)
                  = Sample.run 1 rest p') /\
    fs p' = ∅ /\ length (events (ev p')) = 1%nat.
Proof.
  set (p1 := Proc Sample.constant_click (RState 1 0 (Dbl.of_Z 0) (Dbl.of_Z 0))
               (append_to_vector (init_vector 10)
                  (DelayedEvent virtual_fd EV_KEY 30 1 50 1700000000250))
               Sample.key_down (repeat Sample.gone n)
               [DelayedEvent virtual_fd EV_KEY 30 1 50 0] ∅ [] None false : proc Z).
  destruct (gone_rounds Sample.rand Sample.log Sample.pow 1 (repeat Sample.gone n)
              (Sample.ticks n) p1 [])
    as (p' & Hrun & _ & _ & Hev & _ & Hfs & _).
  - cbn. now rewrite app_nil_r.
  - apply List.Forall_forall. intros r Hr. apply repeat_spec in Hr. now subst.
  - apply List.Forall_forall. intros s Hs. apply repeat_spec in Hs. subst.
    eexists _, _. split; [reflexivity | discriminate].
  - unfold Sample.ticks. now rewrite !repeat_length.
  - exists p'. split; [| split].
    + intros rest. unfold Sample.run in *. rewrite <- Hrun. reflexivity.
    + exact Hfs.
    + rewrite Hev. reflexivity.
Qed.

(** C1 fails on the code.  A keyboard sends a key press and is unplugged:
    however many rounds follow, the daemon is still running, with the key
    press in its vector and no log file written; and when the loop does end,
    on a read of the timer that returns 0, [main] returns 0 with the log
    still unwritten. *)
Lemma device_gone_counterexample :
  (forall n,
     exists p',
       Sample.run 1 (Sample.ticks (S n)) (Sample.unplugged n) = (Running, p') /\
       fs p' !! log_file = None /\ length (events (ev p')) = 1%nat) /\
  (forall n,
     exists p',
       Sample.run 1 (Sample.ticks (S n) ++ [RtcRead 0 Sample.zeroed]) (Sample.unplugged n)
         = (Returned 0, p') /\
       fs p' !! log_file = None /\ length (events (ev p')) = 1%nat).
Proof.
  split; intros n; destruct (unplugged_rounds n) as (p' & Hrun & Hfs & Hev);
    exists p'; rewrite Hfs.
  - specialize (Hrun []). rewrite app_nil_r in Hrun. rewrite Hrun.
    split; [reflexivity | split; [apply lookup_empty | exact Hev]].
  - rewrite Hrun. split; [reflexivity | split; [apply lookup_empty | exact Hev]].
Qed.

(** Without a range for the event's type, the delay scheduled is what the
    allocated memory held. *)
Lemma schedule_other_type {rng} rand log pow fuel block (p p' : proc rng) :
  ie_type (inputEvent p) <> EV_KEY -> ie_type (inputEvent p) <> EV_REL ->
  schedule rand log pow fuel block p = Some p' ->
  exists e, threads p' = threads p ++ [e] /\ delay e = delay block.
Proof.
  intros Hk Hr Hs. apply schedule_spec in Hs as (d & Hth & _ & _ & _ & _ & _ & Hd).
  eexists. split; [exact Hth |]. cbn. apply Hd.
  unfold delay_range.
  destruct (Z.eqb_spec (ie_type (inputEvent p)) EV_KEY); [contradiction |].
  destruct (Z.eqb_spec (ie_type (inputEvent p)) EV_REL); [contradiction |].
  reflexivity.
Qed.

(** C2 fails on the code.  With the constant click delay 50 and motion delay
    0, a key press and the scan code that comes with it are captured while
    [malloc] hands out memory that holds a 7 where [delay] lies: the key
    press is scheduled with delay 50, the scan code ([EV_MSC], neither a key
    nor a relative motion nor a marker) with delay 7, not 0, and both delays
    go to the log. *)
Theorem scan_code_delay_is_not_zero :
  let p := Sample.start Sample.constant_click 1 ∅
             [Reply 0 (Some Sample.key_down); Reply 0 (Some Sample.scan_code)] in
  let r := Sample.run 1 (Sample.dirty_ticks 2) p in
  fst r = Running /\
  map (fun e => (type e, delay e)) (threads (snd r)) = [(EV_KEY, 50); (EV_MSC, 7)] /\
  map (fun e => (type e, delay e)) (events (ev (snd r))) = [(EV_KEY, 50); (EV_MSC, 7)].
Proof.
  vm_compute. repeat split; reflexivity.
Qed.

(** A key press captured with the click range 50..50: its thread sleeps
    50000 microseconds, writes the key press and then the marker; the marker
    that followed the key press on the source device starts no thread. *)
Example constant_click_run :
  let p := Sample.start Sample.constant_click 1 ∅
             [Reply 0 (Some Sample.key_down); Reply 0 (Some Sample.report)] in
  let r := Sample.run 1 (Sample.ticks 2) p in
  fst r = Running /\
  map (fun e => invoke_delayed_evdev_event e 0) (threads (snd r))
  = [[Usleep 50000; UinputWrite EV_KEY 30 1; UinputWrite EV_SYN SYN_REPORT 0; PthreadExit]] /\
  map Log.record_of (events (ev (snd r))) = [(1700000000250, 50, EV_KEY, 1, 30)].
Proof.
  vm_compute. repeat split; reflexivity.
Qed.

(** ** The FIFO of live reconfiguration *)

(** [main] starts no FIFO for an argument other than "none". *)
Lemma main_fifo_other_path (argv : list string) (fs : gmap string node) (path : string) :
  argv !! 7%nat = Some path -> path <> "none" ->
  main_fifo argv fs = inl (None, fs, false).
Proof.
  intros Harg Hne. unfold main_fifo. rewrite Harg.
  destruct (Z.of_nat (length argv) >? 7); [| reflexivity].
  unfold strcmp. destruct (String.eqb_spec path "none"); [contradiction | reflexivity].
Qed.

(** [main] run with "none" creates a FIFO of that name and the listener. *)
Lemma main_fifo_none (argv : list string) (fs : gmap string node) :
  (7 < length argv)%nat -> argv !! 7%nat = Some "none" -> fs !! "none" = None ->
  main_fifo argv fs = inl (Some "none", <["none" := Fifo]> fs, true).
Proof.
  intros Hlen Harg Hfree. unfold main_fifo. rewrite Harg.
  destruct (Z.gtb_spec (Z.of_nat (length argv)) 7) as [_ | Hle]; [| lia].
  unfold strcmp. cbn [String.eqb Ascii.eqb Bool.eqb Z.eqb].
  unfold init_fifo, unlink, mkfifo. rewrite Hfree.
  rewrite lookup_delete_eq. cbn.
  now rewrite delete_id.
Qed.

(** C3 fails on the code: the test of the argument is inverted.  Started
    with the sentinel "none", [main] creates a FIFO named "none" and the
    listener thread; started with a path, it creates neither and the
    configuration can not be changed afterwards. *)
Theorem fifo_started_for_none_only :
  (exists fs',
     main_fifo (Sample.argv "none") ∅ = inl (Some "none", fs', true) /\
     fs' !! "none" = Some Fifo) /\
  main_fifo (Sample.argv "/tmp/delay_fifo") ∅ = inl (None, ∅, false).
Proof.
  split.
  - eexists. split.
    + apply main_fifo_none; [cbn; lia | reflexivity | apply lookup_empty].
    + apply lookup_insert_eq.
  - apply main_fifo_other_path with (path := "/tmp/delay_fifo"); [reflexivity | discriminate].
Qed.

(** The four assignments and the two clamps of [handle_fifo], taken
    together. *)
Lemma apply_set_delay_times (c : config) (q : Z * Z * Z * Z) :
  apply_stores c (set_delay_times q) = Message.replaced c q.
Proof.
  destruct q as [[[a b] m] n]. unfold set_delay_times, Message.replaced, apply_stores.
  destruct (Z.ltb_spec b a), (Z.ltb_spec n m); cbn;
    f_equal; lia.
Qed.

(** Each store changes one variable; what a reader loads from the click
    range after some of the stores of an update. *)
Lemma click_after_stores (c : config) (a b m n : Z) (k : nat) (c' : config) :
  c' = apply_stores c (firstn k (set_delay_times (a, b, m, n))) ->
  (min_delay_click c' = min_delay_click c \/ min_delay_click c' = a) /\
  (max_delay_click c' = max_delay_click c \/ max_delay_click c' = b \/
   max_delay_click c' = Z.max a b).
Proof.
  intros ->. unfold set_delay_times, apply_stores.
  destruct (Z.ltb_spec b a), (Z.ltb_spec n m);
    do 7 (destruct k as [| k]; [cbn; split; auto; try (right; right; lia) |]);
    cbn; rewrite ?firstn_nil; cbn; split; auto; right; right; lia.
Qed.

(** What a reader loads from the move range after some of the stores of an
    update. *)
Lemma move_after_stores (c : config) (a b m n : Z) (k : nat) (c' : config) :
  c' = apply_stores c (firstn k (set_delay_times (a, b, m, n))) ->
  (min_delay_move c' = min_delay_move c \/ min_delay_move c' = m) /\
  (max_delay_move c' = max_delay_move c \/ max_delay_move c' = n \/
   max_delay_move c' = Z.max m n).
Proof.
  intros ->. unfold set_delay_times, apply_stores.
  destruct (Z.ltb_spec b a), (Z.ltb_spec n m);
    do 7 (destruct k as [| k]; [cbn; split; auto; try (right; right; lia) |]);
    cbn; rewrite ?firstn_nil; cbn; split; auto; right; right; lia.
Qed.

(** C4, as the code has it.  [handle_fifo] replaces the configuration by
    four plain assignments and up to two more for the clamping, and nothing
    orders them with the loads of the main thread.  Each of the four
    variables a reader loads, of the click range as of the move range, holds
    its old value, the received value or the clamped value, but a pair need
    not come from one configuration; a reader whose loads all precede the
    update sees the old configuration, and one whose loads all follow it sees
    the received values with each max raised to its min. *)
Theorem config_replacement_by_single_stores :
  forall (c : config) (a b m n : Z) (i j : nat),
    let ops := set_delay_times (a, b, m, n) in
    ((fst (click_view ops c i j) = min_delay_click c \/ fst (click_view ops c i j) = a) /\
     (snd (click_view ops c i j) = max_delay_click c \/ snd (click_view ops c i j) = b \/
      snd (click_view ops c i j) = Z.max a b)) /\
    ((fst (move_view ops c i j) = min_delay_move c \/ fst (move_view ops c i j) = m) /\
     (snd (move_view ops c i j) = max_delay_move c \/ snd (move_view ops c i j) = n \/
      snd (move_view ops c i j) = Z.max m n)) /\
    click_view ops c 0 0 = (min_delay_click c, max_delay_click c) /\
    move_view ops c 0 0 = (min_delay_move c, max_delay_move c) /\
    click_view ops c (length ops) (length ops) = (a, Z.max a b) /\
    move_view ops c (length ops) (length ops) = (m, Z.max m n).
Proof.
  intros c a b m n i j ops. subst ops. unfold click_view, move_view. cbn [fst snd].
  pose proof (click_after_stores c a b m n i _ eq_refl) as [Hi _].
  pose proof (click_after_stores c a b m n j _ eq_refl) as [_ Hj].
  pose proof (move_after_stores c a b m n i _ eq_refl) as [Hmi _].
  pose proof (move_after_stores c a b m n j _ eq_refl) as [_ Hmj].
  rewrite !firstn_all, apply_set_delay_times.
  split; [split; assumption |]. split; [split; assumption |].
  repeat split.
Qed.

(** C4 fails on the code.  The click range is 50..50 when the message
    "10 20 0 0" arrives; a reader that loads both variables after the first
    store of the update finds the range 10..50: the new min with the old
    max, which is neither the old configuration nor the new one. *)
Lemma config_replacement_counterexample :
  click_view (set_delay_times (10, 20, 0, 0)) Sample.constant_click 1 1 = (10, 50) /\
  click_view (set_delay_times (10, 20, 0, 0)) Sample.constant_click 0 0 = (50, 50) /\
  click_view (set_delay_times (10, 20, 0, 0)) Sample.constant_click 6 6 = (10, 20).
Proof.
  repeat split; reflexivity.
Qed.

(** ** Scanning decimal numbers *)

Module ScanFacts.
Import Scan Message.

Local Abbreviation chars := list_ascii_of_string.

Lemma scan_digits_stop acc tail :
  no_digit_ahead tail -> scan_digits acc tail = (acc, tail).
Proof.
  destruct tail as [| c tail]; cbn; [reflexivity |]. now intros ->.
Qed.

(** Reading back the digits of [d]. *)
Lemma scan_digits_uint d : forall acc tail,
  no_digit_ahead tail ->
  scan_digits acc (chars (NilEmpty.string_of_uint d) ++ tail) = (digits_value acc d, tail).
Proof.
  induction d; intros acc tail Htail;
    [apply (scan_digits_stop _ _ Htail) | apply (IHd _ _ Htail) ..].
Qed.

Lemma digits_value_pos d : forall acc,
  digits_value (Z.pos acc) d = Z.pos (Pos.of_uint_acc d acc).
Proof.
  induction d; intros acc; cbn [digits_value Pos.of_uint_acc];
    [reflexivity | rewrite <- IHd; f_equal; lia ..].
Qed.

Lemma digits_value_0 d : digits_value 0 d = Z.of_N (Pos.of_uint d).
Proof.
  induction d; cbn [digits_value Pos.of_uint Z.mul Z.add Z.of_N];
    [reflexivity | exact IHd | apply digits_value_pos ..].
Qed.

(** A numeral starts with a digit. *)
Lemma head_digit d :
  d <> Nil ->
  exists c s k,
    chars (NilEmpty.string_of_uint d) = c :: s /\ digit_val c = Some k /\
    isspace c = false /\ Ascii.eqb c "-" = false /\ Ascii.eqb c "+" = false.
Proof.
  destruct d; [contradiction | intros _; eexists _, _, _; cbn; repeat split ..].
Qed.

Lemma scan_d_digits d tail :
  d <> Nil -> no_digit_ahead tail ->
  scan_d (chars (NilEmpty.string_of_uint d) ++ tail) = Conv (store_int (digits_value 0 d)) tail.
Proof.
  intros Hd Htail.
  destruct (head_digit d Hd) as (c & s & k & Heq & Hk & Hs & Hm & Hp).
  pose proof (scan_digits_uint d 0 tail Htail) as Hscan.
  rewrite Heq in *. unfold scan_d. cbn [app skip_space].
  rewrite Hs, Hm, Hp. cbn [orb]. rewrite Hk.
  cbn [app] in Hscan. rewrite Hscan. reflexivity.
Qed.

Lemma scan_d_minus d tail :
  d <> Nil -> no_digit_ahead tail ->
  scan_d ("-"%char :: chars (NilEmpty.string_of_uint d) ++ tail)
  = Conv (store_int (- digits_value 0 d)) tail.
Proof.
  intros Hd Htail.
  destruct (head_digit d Hd) as (c & s & k & Heq & Hk & Hs & Hm & Hp).
  pose proof (scan_digits_uint d 0 tail Htail) as Hscan.
  rewrite Heq in *. unfold scan_d. cbn [app skip_space].
  change (isspace "-") with false. cbv beta iota.
  change (Ascii.eqb "-" "-") with true. cbn [orb]. cbv beta iota. rewrite Hk.
  cbn [app] in Hscan. rewrite Hscan. reflexivity.
Qed.

(** [%d] reads back what [%d] prints. *)
Lemma scan_d_dec z tail :
  no_digit_ahead tail ->
  scan_d (chars (Fmt.dec z) ++ tail) = Conv (store_int z) tail.
Proof.
  intros Htail. unfold Fmt.dec. destruct z as [| p | p]; cbn [Z.to_int NilEmpty.string_of_int].
  - apply (scan_d_digits (D0 Nil) tail); [discriminate | exact Htail].
  - rewrite scan_d_digits by (apply DecimalPos.Unsigned.to_uint_nonnil || exact Htail).
    now rewrite digits_value_0, DecimalPos.Unsigned.of_to.
  - cbn [list_ascii_of_string app].
    rewrite scan_d_minus by (apply DecimalPos.Unsigned.to_uint_nonnil || exact Htail).
    now rewrite digits_value_0, DecimalPos.Unsigned.of_to.
Qed.

Lemma store_int_id z : CInt.is_int z -> store_int z = z.
Proof.
  intros H. unfold store_int.
  assert (Z.max (- 2 ^ 63) (Z.min (2 ^ 63 - 1) z) = z) as ->.
  { unfold CInt.is_int, CInt.INT_MIN, CInt.INT_MAX in H.
    change (2 ^ 63) with 9223372036854775808. lia. }
  now apply CIntFacts.to_int_id.
Qed.

Lemma scan_d_space c s : isspace c = true -> scan_d (c :: s) = scan_d s.
Proof.
  intros H. unfold scan_d. cbn [skip_space]. now rewrite H.
Qed.

Lemma scan_d_blank ws : blank ws -> scan_d ws = InputFail.
Proof.
  induction 1 as [| c ws Hc _ IH]; [reflexivity |].
  now rewrite scan_d_space.
Qed.

(** The first number of a joined list, and what is left to read. *)
Lemma scan_d_join x l tail :
  (l = [] -> no_digit_ahead tail) ->
  scan_d (join (x :: l) ++ tail)
  = Conv (store_int x) (match l with
                        | [] => tail
                        | _ => " "%char :: join l ++ tail
                        end).
Proof.
  intros Htail. destruct l as [| y l].
  - apply scan_d_dec. now apply Htail.
  - change (join (x :: y :: l)) with (chars (Fmt.dec x) ++ " "%char :: join (y :: l)).
    rewrite <- app_assoc. apply scan_d_dec. reflexivity.
Qed.

Lemma scan_d_next x l tail :
  (l = [] -> no_digit_ahead tail) ->
  scan_d (" "%char :: join (x :: l) ++ tail)
  = Conv (store_int x) (match l with
                        | [] => tail
                        | _ => " "%char :: join l ++ tail
                        end).
Proof.
  intros Htail. rewrite scan_d_space by reflexivity. now apply scan_d_join.
Qed.


(** [sscanf] on four or more joined integers: it returns 4 and stores the
    first four. *)
Lemma sscanf_4d_four a b m n more tail old :
  (more = [] -> no_digit_ahead tail) ->
  sscanf_4d (join (a :: b :: m :: n :: more) ++ tail) old
  = (4, (store_int a, store_int b, store_int m, store_int n)).
Proof.
  intros Htail. unfold sscanf_4d. destruct old as [[[a0 b0] c0] d0].
  rewrite scan_d_join by discriminate.
  rewrite scan_d_next by discriminate.
  rewrite scan_d_next by discriminate.
  rewrite scan_d_next by exact Htail.
  reflexivity.
Qed.





End ScanFacts.

(** ** The listener's rounds *)







(** The bytes an earlier message left in [buffer] complete a shorter one:
    [read] does not end what it stored with a [NUL].  After "10 20 30 40"
    the message "10 20 0" is read as 10 20 0 40 and accepted, although on a
    fresh buffer it is rejected. *)
Theorem leftover_bytes_complete_a_short_message :
  (exists l out,
     handle_fifo [Sample.echo "10 20 30 40"; Sample.echo "10 20 0"]
                 Sample.constant_click Sample.fresh_listener
     = Some (Message.replaced Sample.constant_click (10, 20, 0, 40), l, out)) /\
  (exists l,
     handle_fifo [Sample.echo "10 20 0"] Sample.constant_click Sample.fresh_listener
     = Some (Sample.constant_click, l, [Message.rejection])).
Proof.
  split; [eexists _, _ | eexists]; vm_compute; reflexivity.
Qed.

(** ** The event log *)

Module LogFacts.
Import Log.

Lemma append_cons x (a b : string) : String x a +:+ b = String x (a +:+ b).
Proof. reflexivity. Qed.

Lemma append_nil_l (a : string) : "" +:+ a = a.
Proof. reflexivity. Qed.

Lemma append_assoc (a b c : string) : (a +:+ b) +:+ c = a +:+ (b +:+ c).
Proof.
  induction a as [| x a IH]; [reflexivity |].
  rewrite !append_cons. f_equal. exact IH.
Qed.

Lemma append_nil_r (a : string) : a +:+ "" = a.
Proof.
  induction a as [| x a IH]; [reflexivity |].
  rewrite append_cons. f_equal. exact IH.
Qed.

Lemma log_line_body e : log_line e = line_body e +:+ Fmt.nl.
Proof.
  unfold log_line, line_body. now rewrite !append_assoc.
Qed.

(** The loop prints the rows after the text that was there. *)
Lemma fprintf_events_rows l : forall text,
  fprintf_events l text = text +:+ rows l.
Proof.
  unfold rows, fprintf_events.
  induction l as [| e l IH]; intros text; cbn [fold_left].
  - now rewrite append_nil_r.
  - rewrite IH, (IH ("" +:+ log_line e)), append_nil_l.
    now rewrite append_assoc.
Qed.

Lemma rows_cons e l : rows (e :: l) = line_body e +:+ Fmt.nl +:+ rows l.
Proof.
  unfold rows, fprintf_events. cbn [fold_left].
  change (fold_left _ l ("" +:+ log_line e))
    with (fprintf_events l (log_line e)).
  rewrite fprintf_events_rows, log_line_body. now rewrite append_assoc.
Qed.

Lemma rows_app l1 l2 : rows (l1 ++ l2) = rows l1 +:+ rows l2.
Proof.
  induction l1 as [| e l1 IH]; [reflexivity |].
  cbn [app]. rewrite !rows_cons, IH. now rewrite !append_assoc.
Qed.

Lemma all_chars_app P a b :
  all_chars P (a +:+ b) = all_chars P a && all_chars P b.
Proof.
  induction a as [| x a IH]; [reflexivity |].
  rewrite append_cons. cbn [all_chars]. now rewrite IH, andb_assoc.
Qed.

(** A number in decimal is digits, after a [-] when negative. *)
Lemma uint_numeral d : all_chars numeral_char (NilEmpty.string_of_uint d) = true.
Proof.
  induction d; cbn; [reflexivity | exact IHd ..].
Qed.

Lemma dec_numeral z : all_chars numeral_char (Fmt.dec z) = true.
Proof.
  unfold Fmt.dec. destruct (Z.to_int z); cbn; apply uint_numeral.
Qed.

(** A line without line end in front of a text. *)
Lemma lines_line body : forall rest,
  all_chars (fun c => negb (Ascii.eqb c newline)) body = true ->
  lines (body +:+ Fmt.nl +:+ rest) = body :: lines rest.
Proof.
  induction body as [| c body IH]; intros rest H.
  - reflexivity.
  - cbn [all_chars] in H. apply andb_true_iff in H as [Hc Hb].
    rewrite append_cons. cbn [lines]. apply negb_true_iff in Hc. rewrite Hc.
    now rewrite (IH rest Hb).
Qed.

Lemma split_on_field sep body : forall rest,
  all_chars (fun c => negb (Ascii.eqb c sep)) body = true ->
  split_on sep (body +:+ String sep rest) = body :: split_on sep rest.
Proof.
  induction body as [| c body IH]; intros rest H.
  - rewrite append_nil_l. cbn [split_on]. now rewrite Ascii.eqb_refl.
  - cbn [all_chars] in H. apply andb_true_iff in H as [Hc Hb].
    rewrite append_cons. cbn [split_on]. apply negb_true_iff in Hc. rewrite Hc.
    now rewrite (IH rest Hb).
Qed.

Lemma split_on_last sep body :
  all_chars (fun c => negb (Ascii.eqb c sep)) body = true ->
  split_on sep body = [body].
Proof.
  induction body as [| c body IH]; intros H; [reflexivity |].
  cbn [all_chars] in H. apply andb_true_iff in H as [Hc Hb].
  cbn [split_on]. apply negb_true_iff in Hc. rewrite Hc.
  now rewrite (IH Hb).
Qed.

Lemma all_chars_impl (P Q : ascii -> bool) s :
  (forall c, P c = true -> Q c = true) ->
  all_chars P s = true -> all_chars Q s = true.
Proof.
  intros HPQ. induction s as [| c s IH]; cbn; [reflexivity |].
  intros H. apply andb_true_iff in H as [Hc Hs].
  now rewrite (HPQ c Hc), (IH Hs).
Qed.

Lemma numeral_char_not c sep :
  numeral_char sep = false -> numeral_char c = true -> negb (Ascii.eqb c sep) = true.
Proof.
  intros Hsep Hc. apply negb_true_iff. destruct (Ascii.eqb_spec c sep); [| reflexivity].
  subst. congruence.
Qed.

Lemma dec_without z sep :
  numeral_char sep = false ->
  all_chars (fun c => negb (Ascii.eqb c sep)) (Fmt.dec z) = true.
Proof.
  intros Hsep. apply (all_chars_impl numeral_char); [| apply dec_numeral].
  intros c. now apply numeral_char_not.
Qed.

Lemma parse_dec_dec z : parse_dec (Fmt.dec z) = Some z.
Proof.
  unfold parse_dec, Fmt.dec. now rewrite NilEmpty.isi, DecimalZ.of_to.
Qed.

(** A record's line gives the record back. *)
Lemma parse_line_body e : parse_line (line_body e) = Some (record_of e).
Proof.
  unfold parse_line, line_body. rewrite !append_cons, !append_nil_l.
  rewrite !split_on_field by (now apply dec_without).
  rewrite split_on_last by (now apply dec_without).
  cbn [map]. now rewrite !parse_dec_dec.
Qed.

Lemma line_body_one_line e :
  all_chars (fun c => negb (Ascii.eqb c newline)) (line_body e) = true.
Proof.
  unfold line_body. rewrite !all_chars_app.
  rewrite !dec_without by reflexivity. reflexivity.
Qed.

Lemma lines_rows l : lines (rows l) = map line_body l.
Proof.
  induction l as [| e l IH]; [reflexivity |].
  rewrite rows_cons, lines_line by apply line_body_one_line.
  now rewrite IH.
Qed.

(** No record's line is the header. *)
Lemma line_body_not_header e : line_body e <> header_line.
Proof.
  intros H. pose proof (parse_line_body e) as Hp. rewrite H in Hp. discriminate.
Qed.

End LogFacts.

(** The header is one line. *)
Lemma lines_header (text : string) :
  Log.lines (header +:+ text) = Log.header_line :: Log.lines text.
Proof.
  change header with (Log.header_line +:+ Fmt.nl).
  rewrite LogFacts.append_assoc. now apply LogFacts.lines_line.
Qed.

Lemma header_not_among (l : list delayed_event) :
  count_occ string_dec (map Log.line_body l) Log.header_line = 0%nat.
Proof.
  apply count_occ_not_In. intros Hin. apply in_map_iff in Hin as (e & He & _).
  now apply (LogFacts.line_body_not_header e).
Qed.

(** [write_event_log] when [log_file] is absent or a regular file. *)
Lemma write_event_log_absent (v : event_vector) (fs : gmap string node) :
  fs !! log_file = None ->
  write_event_log v fs
  = Some (free_vector v, <[log_file := File (header +:+ Log.rows (events v))]> fs).
Proof.
  intros Hnone. unfold write_event_log, access. rewrite Hnone. cbv beta iota zeta.
  rewrite lookup_insert_eq. cbv beta iota.
  rewrite LogFacts.fprintf_events_rows.
  now rewrite insert_insert_eq.
Qed.

Lemma write_event_log_present (v : event_vector) (fs : gmap string node) (text : string) :
  fs !! log_file = Some (File text) ->
  write_event_log v fs
  = Some (free_vector v, <[log_file := File (text +:+ Log.rows (events v))]> fs).
Proof.
  intros Hsome. unfold write_event_log, access. rewrite Hsome. cbv beta iota zeta.
  rewrite Hsome. cbv beta iota.
  now rewrite LogFacts.fprintf_events_rows.
Qed.

(** C9.  [write_event_log] on a vector of N events: when the log file does
    not exist it is created with the header followed by the N rows; when it
    exists as a regular file the N rows are appended to its text and no
    header is written.  The rows are N lines, one per event in the order of
    the vector, each [timestamp;delay;type;value;code] of its event (read
    back, a line gives the five numbers of the event); a log that started
    with the header still has the header exactly once, as its first line,
    after any number of flushes; and the vector is empty afterwards. *)
Theorem write_event_log_appends :
  forall (v : event_vector) (fs : gmap string node),
    (fs !! log_file = None ->
     write_event_log v fs
     = Some (free_vector v, <[log_file := File (header +:+ Log.rows (events v))]> fs)) /\
    (forall text,
       fs !! log_file = Some (File text) ->
       write_event_log v fs
       = Some (free_vector v, <[log_file := File (text +:+ Log.rows (events v))]> fs)) /\
    (used (free_vector v) = 0 /\ events (free_vector v) = []) /\
    (Log.lines (Log.rows (events v)) = map Log.line_body (events v) /\
     length (Log.lines (Log.rows (events v))) = length (events v) /\
     map Log.parse_line (Log.lines (Log.rows (events v)))
     = map (fun e => Some (Log.record_of e)) (events v)) /\
    (forall earlier,
       Log.lines (header +:+ Log.rows earlier +:+ Log.rows (events v))
       = Log.header_line :: map Log.line_body (earlier ++ events v) /\
       count_occ string_dec
         (Log.lines (header +:+ Log.rows earlier +:+ Log.rows (events v)))
         Log.header_line = 1%nat).
Proof.
  intros v fs. split; [| split; [| split; [| split]]].
  - apply write_event_log_absent.
  - intros text. apply write_event_log_present.
  - split; reflexivity.
  - rewrite LogFacts.lines_rows. split; [reflexivity | split].
    + now rewrite length_map.
    + rewrite map_map. apply map_ext. intros e. apply LogFacts.parse_line_body.
  - intros earlier. rewrite <- LogFacts.rows_app, lines_header, LogFacts.lines_rows.
    split; [reflexivity |].
    rewrite count_occ_cons_eq by reflexivity. now rewrite header_not_among.
Qed.

Lemma write_event_log_appends_witness :
  write_event_log Sample.logged ∅
  = Some (free_vector Sample.logged,
          <[log_file := File (header +:+ Log.rows (events Sample.logged))]> ∅) /\
  write_event_log Sample.logged {[log_file := File header]}
  = Some (free_vector Sample.logged,
          <[log_file := File (header +:+ Log.rows (events Sample.logged))]>
            {[log_file := File header]}).
Proof.
  split.
  - apply (proj1 (write_event_log_appends Sample.logged ∅)). apply lookup_empty.
  - apply (proj1 (proj2 (write_event_log_appends Sample.logged {[log_file := File header]}))).
    apply lookup_singleton_eq.
Defined.

(** The file the sample vector leaves. *)
Example sample_log_text :
  header +:+ Log.rows (events Sample.logged)
  = "timestamp;delay;type;value;code" +:+ Fmt.nl +:+
    "1700000000250;50;1;1;30" +:+ Fmt.nl +:+
    "1700000000258;12;2;-3;0" +:+ Fmt.nl.
Proof. reflexivity. Qed.

(** [onExit] flushes the vector to an absent or regular log file, and ends the
    process with [exit (0)] when the listener thread exists. *)
Lemma onExit_flushes {rng} (p : proc rng) (text : string) :
  fs p !! log_file = None /\ text = header \/ fs p !! log_file = Some (File text) ->
  fifo_path p <> Some log_file ->
  exists st p',
    onExit p = (st, p') /\
    events (ev p') = [] /\
    fs p' !! log_file = Some (File (text +:+ Log.rows (events (ev p)))) /\
    (fifo_thread p = true -> st = Exited 0).
Proof.
  intros Hfile Hpath. unfold onExit.
  assert (write_event_log (ev p) (fs p)
          = Some (free_vector (ev p),
                  <[log_file := File (text +:+ Log.rows (events (ev p)))]> (fs p))) as ->.
  { destruct Hfile as [[Hnone ->] | Hsome].
    - now apply write_event_log_absent.
    - now apply write_event_log_present. }
  destruct (fifo_thread p) eqn:Hth.
  - eexists _, _. split; [reflexivity |]. cbn. split; [reflexivity |]. split; [| reflexivity].
    destruct (fifo_path p) as [path |]; [| apply lookup_insert_eq].
    assert (path <> log_file) as Hne by congruence.
    unfold unlink. rewrite lookup_insert_ne by congruence.
    destruct (fs p !! path) as [[| |] |];
      rewrite ?lookup_delete_ne by congruence; apply lookup_insert_eq.
  - eexists _, _. split; [reflexivity |]. cbn. split; [reflexivity |].
    split; [apply lookup_insert_eq | discriminate].
Qed.

Lemma onExit_flushes_witness :
  exists st p',
    onExit (Proc Sample.constant_click Sample.seeded Sample.logged Sample.key_down []
                 [] ∅ [] (Some "none") true : proc Z) = (st, p') /\
    events (ev p') = [] /\
    fs p' !! log_file = Some (File (header +:+ Log.rows (events Sample.logged))) /\
    (true = true -> st = Exited 0).
Proof.
  apply (onExit_flushes
           (Proc Sample.constant_click Sample.seeded Sample.logged Sample.key_down []
                 [] ∅ [] (Some "none") true : proc Z) header).
  - left. split; [apply lookup_empty | reflexivity].
  - discriminate.
Defined.

(** ** The normal distribution *)

Section NormalFacts.

Context {rng : Type}.
Variable rand : rng -> Z * rng.
Variable log : double -> double.
Variable pow : double -> double -> double.

(** More fuel does not change a result. *)
Lemma polar_loop_mono fuel : forall fuel' g r,
  polar_loop rand pow fuel g = Some r -> (fuel <= fuel')%nat ->
  polar_loop rand pow fuel' g = Some r.
Proof.
  induction fuel as [| fuel IH]; intros fuel' g r H Hle; [discriminate |].
  destruct fuel' as [| fuel']; [lia |].
  cbn [polar_loop] in *.
  destruct (rand g) as [r1 g1]. destruct (rand g1) as [r2 g2].
  destruct (_ || _); [| exact H].
  apply IH; [exact H | lia].
Qed.

Lemma randn_mono fuel fuel' m s st r :
  randn rand log pow fuel m s st = Some r -> (fuel <= fuel')%nat ->
  randn rand log pow fuel' m s st = Some r.
Proof.
  unfold randn. intros H Hle. destruct (call st =? 1); [exact H |].
  destruct (polar_loop rand pow fuel (gen st)) as [q |] eqn:Hp; [| discriminate].
  now rewrite (polar_loop_mono fuel fuel' (gen st) q Hp Hle).
Qed.

Lemma redraw_loop_mono inner inner' m s lo hi fuel : forall fuel' x st r,
  redraw_loop rand log pow inner fuel m s lo hi x st = Some r ->
  (inner <= inner')%nat -> (fuel <= fuel')%nat ->
  redraw_loop rand log pow inner' fuel' m s lo hi x st = Some r.
Proof.
  induction fuel as [| fuel IH]; intros fuel' x st r H Hin Hle.
  - cbn [redraw_loop] in H. destruct ((x <? lo) || (x >? hi)) eqn:Hout; [discriminate |].
    destruct fuel'; cbn [redraw_loop]; now rewrite Hout.
  - destruct fuel' as [| fuel']; [lia |].
    cbn [redraw_loop] in *. destruct ((x <? lo) || (x >? hi)); [| exact H].
    destruct (randn rand log pow inner m s st) as [[x' st'] |] eqn:Hr; [| discriminate].
    rewrite (randn_mono inner inner' m s st (x', st') Hr Hin).
    apply IH; [exact H | exact Hin | lia].
Qed.

(** What the loop returns passed its test. *)
Lemma redraw_loop_range inner m s lo hi fuel : forall x st y st',
  redraw_loop rand log pow inner fuel m s lo hi x st = Some (y, st') ->
  lo <= y <= hi.
Proof.
  induction fuel as [| fuel IH]; intros x st y st' H; cbn [redraw_loop] in H;
    destruct ((x <? lo) || (x >? hi)) eqn:Hout.
  - discriminate.
  - injection H as <- <-. apply orb_false_iff in Hout as [H1 H2]. lia.
  - destruct (randn rand log pow inner m s st) as [[x' st1] |]; [| discriminate].
    now apply (IH x' st1 y st').
  - injection H as <- <-. apply orb_false_iff in Hout as [H1 H2]. lia.
Qed.

Lemma nth_draw_mono inner inner' m s n : forall st r,
  nth_draw rand log pow inner m s n st = Some r -> (inner <= inner')%nat ->
  nth_draw rand log pow inner' m s n st = Some r.
Proof.
  induction n as [| n IH]; intros st r H Hle; cbn [nth_draw] in *.
  - now apply (randn_mono inner inner').
  - destruct (randn rand log pow inner m s st) as [[x st1] |] eqn:Hr; [| discriminate].
    rewrite (randn_mono inner inner' m s st (x, st1) Hr Hle).
    now apply IH.
Qed.

(** The loop skips the draws that miss the range and stops at the first one
    that lies in it. *)
Lemma redraw_loop_first inner m s lo hi n : forall fuel x0 st x st',
  (x0 <? lo) || (x0 >? hi) = true ->
  (forall k y sk, (k < n)%nat ->
     nth_draw rand log pow inner m s k st = Some (y, sk) -> ~ lo <= y <= hi) ->
  nth_draw rand log pow inner m s n st = Some (x, st') -> lo <= x <= hi ->
  (n < fuel)%nat ->
  redraw_loop rand log pow inner fuel m s lo hi x0 st = Some (x, st').
Proof.
  induction n as [| n IH]; intros fuel x0 st x st' Hout Hmiss Hn Hin Hfuel;
    (destruct fuel as [| fuel]; [lia |]); cbn [redraw_loop nth_draw] in *; rewrite Hout.
  - rewrite Hn.
    assert ((x <? lo) || (x >? hi) = false) as Hacc.
    { apply orb_false_iff. split; [apply Z.ltb_ge | rewrite Z.gtb_ltb; apply Z.ltb_ge]; lia. }
    destruct fuel; cbn [redraw_loop]; now rewrite Hacc.
  - destruct (randn rand log pow inner m s st) as [[y st1] |] eqn:Hr; [| discriminate].
    apply (IH fuel y st1 x st'); [| | exact Hn | exact Hin | lia].
    + pose proof (Hmiss 0%nat y st1 ltac:(lia) Hr) as Hy.
      apply orb_true_iff.
      destruct (Z.ltb_spec y lo); [now left | right].
      rewrite Z.gtb_ltb. apply Z.ltb_lt. lia.
    + intros k z sk Hk Hz. apply (Hmiss (S k) z sk); [lia |].
      cbn [nth_draw]. now rewrite Hr.
Qed.

(** What the loop returns after a start value outside the range is the first
    draw that lies in the range. *)
Lemma redraw_loop_is_first inner m s lo hi fuel : forall x0 st x st',
  (x0 <? lo) || (x0 >? hi) = true ->
  redraw_loop rand log pow inner fuel m s lo hi x0 st = Some (x, st') ->
  exists n,
    (n < fuel)%nat /\
    nth_draw rand log pow inner m s n st = Some (x, st') /\
    forall k y sk, (k < n)%nat ->
      nth_draw rand log pow inner m s k st = Some (y, sk) -> ~ lo <= y <= hi.
Proof.
  induction fuel as [| fuel IH]; intros x0 st x st' Hout H;
    cbn [redraw_loop] in H; rewrite Hout in H; [discriminate |].
  destruct (randn rand log pow inner m s st) as [[y st1] |] eqn:Hr; [| discriminate].
  destruct ((y <? lo) || (y >? hi)) eqn:Hy.
  - destruct (IH y st1 x st' Hy H) as (n & Hn & Hdraw & Hmiss).
    exists (S n). split; [lia |]. split; [cbn [nth_draw]; now rewrite Hr |].
    intros k z sk Hk Hz. destruct k as [| k].
    + cbn [nth_draw] in Hz. rewrite Hr in Hz. injection Hz as <- <-.
      apply orb_true_iff in Hy as [Hy | Hy];
        [apply Z.ltb_lt in Hy | rewrite Z.gtb_ltb in Hy; apply Z.ltb_lt in Hy]; lia.
    + cbn [nth_draw] in Hz. rewrite Hr in Hz.
      apply (Hmiss k z sk); [lia | exact Hz].
  - assert (redraw_loop rand log pow inner fuel m s lo hi y st1 = Some (y, st1)) as Hstop
      by (destruct fuel; cbn [redraw_loop]; now rewrite Hy).
    rewrite Hstop in H. injection H as <- <-.
    exists 0%nat. split; [lia |]. split; [exact Hr |]. intros k z sk Hk. lia.
Qed.

(** C8, as the code has it.  In the normal mode, a value [calculate_delay]
    returns lies within [min .. max] and is what it printed; a result does
    not change with more fuel; the start value -1 is returned without a draw
    when it lies in the range; otherwise the first draw of [randn] that lies
    in the range is returned, after any number of draws that miss it, and
    whatever is returned is that first draw.  The code has no bound on the
    number of redraws, and nothing here says that a draw in the range ever
    comes. *)
Theorem calculate_delay_normal_range :
  forall (m s : double) (lo hi : Z) (st : rstate rng),
    (forall fuel x st' out,
       calculate_delay rand log pow fuel normal m s lo hi st = Some (x, st', out) ->
       lo <= x <= hi /\ (lo <> hi -> out = [Fmt.dec x +:+ Fmt.nl])) /\
    (forall fuel fuel' r,
       calculate_delay rand log pow fuel normal m s lo hi st = Some r ->
       (fuel <= fuel')%nat ->
       calculate_delay rand log pow fuel' normal m s lo hi st = Some r) /\
    (forall fuel,
       lo <> hi -> lo <= -1 <= hi ->
       calculate_delay rand log pow fuel normal m s lo hi st
       = Some (-1, st, [Fmt.dec (-1) +:+ Fmt.nl])) /\
    (forall fuel n x st',
       lo <> hi -> ~ lo <= -1 <= hi ->
       (forall k y sk, (k < n)%nat ->
          nth_draw rand log pow fuel m s k st = Some (y, sk) -> ~ lo <= y <= hi) ->
       nth_draw rand log pow fuel m s n st = Some (x, st') -> lo <= x <= hi ->
       (n < fuel)%nat ->
       calculate_delay rand log pow fuel normal m s lo hi st
       = Some (x, st', [Fmt.dec x +:+ Fmt.nl])) /\
    (forall fuel x st' out,
       lo <> hi -> ~ lo <= -1 <= hi ->
       calculate_delay rand log pow fuel normal m s lo hi st = Some (x, st', out) ->
       exists n,
         nth_draw rand log pow fuel m s n st = Some (x, st') /\
         forall k y sk, (k < n)%nat ->
           nth_draw rand log pow fuel m s k st = Some (y, sk) -> ~ lo <= y <= hi).
Proof.
  intros m s lo hi st. unfold calculate_delay.
  change (normal =? linear) with false. change (normal =? normal) with true.
  cbv beta iota.
  assert (~ lo <= -1 <= hi -> (-1 <? lo) || (-1 >? hi) = true) as Hstart.
  { intros Hnot. apply orb_true_iff.
    destruct (Z.ltb_spec (-1) lo); [now left | right].
    rewrite Z.gtb_ltb. apply Z.ltb_lt. lia. }
  split; [| split; [| split; [| split]]].
  - intros fuel x st' out H.
    destruct (Z.eqb_spec lo hi) as [-> | Hne].
    + injection H as <- <- <-. split; [lia | congruence].
    + destruct (redraw_loop rand log pow fuel fuel m s lo hi (-1) st) as [[y st1] |] eqn:Hl;
        [| discriminate].
      injection H as <- <- <-. split; [| reflexivity].
      now apply (redraw_loop_range fuel m s lo hi fuel (-1) st y st1).
  - intros fuel fuel' r H Hle.
    destruct (lo =? hi); [exact H |].
    destruct (redraw_loop rand log pow fuel fuel m s lo hi (-1) st) as [[y st1] |] eqn:Hl;
      [| discriminate].
    now rewrite (redraw_loop_mono fuel fuel' m s lo hi fuel fuel' (-1) st (y, st1) Hl Hle Hle).
  - intros fuel Hne Hin.
    destruct (Z.eqb_spec lo hi) as [? | _]; [contradiction |].
    assert ((-1 <? lo) || (-1 >? hi) = false) as Hout.
    { apply orb_false_iff. split; [apply Z.ltb_ge | rewrite Z.gtb_ltb; apply Z.ltb_ge]; lia. }
    destruct fuel; cbn [redraw_loop]; now rewrite Hout.
  - intros fuel n x st' Hne Hnot Hmiss Hdraw Hin Hfuel.
    destruct (Z.eqb_spec lo hi) as [? | _]; [contradiction |].
    now rewrite (redraw_loop_first fuel m s lo hi n fuel (-1) st x st'
                   (Hstart Hnot) Hmiss Hdraw Hin Hfuel).
  - intros fuel x st' out Hne Hnot H.
    destruct (Z.eqb_spec lo hi) as [? | _]; [contradiction |].
    destruct (redraw_loop rand log pow fuel fuel m s lo hi (-1) st) as [[y st1] |] eqn:Hl;
      [| discriminate].
    injection H as <- <- <-.
    destruct (redraw_loop_is_first fuel m s lo hi fuel (-1) st y st1 (Hstart Hnot) Hl)
      as (n & _ & Hdraw & Hmiss).
    exists n. split; assumption.
Qed.

(** With mean and deviation zero, [randn] returns 0, or [INT_MIN] where the
    product is not a number. *)
Lemma zero_draw (x : double) :
  Dbl.to_int (Dbl.add (S754_zero false) (Dbl.mul (S754_zero false) x)) = 0 \/
  Dbl.to_int (Dbl.add (S754_zero false) (Dbl.mul (S754_zero false) x)) = CInt.INT_MIN.
Proof.
  destruct x as [[|] | [|] | | [|] mx ex]; cbn; auto.
Qed.

Lemma randn_zero fuel (st : rstate rng) x st' :
  randn rand log pow fuel (S754_zero false) (S754_zero false) st = Some (x, st') ->
  x < 5.
Proof.
  unfold randn. intros H.
  assert (exists y, x = Dbl.to_int (Dbl.add (S754_zero false) (Dbl.mul (S754_zero false) y)))
    as [y ->].
  { destruct (call st =? 1).
    - injection H as Hx _. exists (X2 st). symmetry. exact Hx.
    - destruct (polar_loop rand pow fuel (gen st)) as [[[[U1 U2] W] g] |]; [| discriminate].
      injection H as Hx _.
      exists (Dbl.mul U1 (Dbl.sqrt (Dbl.div (Dbl.mul (Dbl.of_Z (-2)) (log W)) W))).
      symmetry. exact Hx. }
  destruct (zero_draw y) as [-> | ->]; [lia | now cbv].
Qed.

Lemma redraw_loop_zero inner fuel : forall x (st : rstate rng),
  x < 5 ->
  redraw_loop rand log pow inner fuel (S754_zero false) (S754_zero false) 5 10 x st = None.
Proof.
  induction fuel as [| fuel IH]; intros x st Hx; cbn [redraw_loop];
    (destruct (Z.ltb_spec x 5); [| lia]); cbn [orb]; [reflexivity |].
  destruct (randn rand log pow inner _ _ st) as [[x' st'] |] eqn:Hr; [| reflexivity].
  apply IH. now apply (randn_zero inner st x' st').
Qed.

End NormalFacts.

Lemma calculate_delay_normal_range_witness :
  calculate_delay Sample.rand Sample.log Sample.pow 10 normal
    (default_mu 45 55) (default_sigma (default_mu 45 55)) 45 55 Sample.seeded
  = Some (50, RState 377401575 1
                (S754_finite false 8097455597596901 (-57))
                (S754_finite true 5915770460204915 (-52)),
          [Fmt.dec 50 +:+ Fmt.nl]) /\
  45 <= 50 <= 55.
Proof.
  assert (calculate_delay Sample.rand Sample.log Sample.pow 10 normal
            (default_mu 45 55) (default_sigma (default_mu 45 55)) 45 55 Sample.seeded
          = Some (50, RState 377401575 1
                        (S754_finite false 8097455597596901 (-57))
                        (S754_finite true 5915770460204915 (-52)),
                  [Fmt.dec 50 +:+ Fmt.nl])) as Hrun by (vm_compute; reflexivity).
  split; [exact Hrun |].
  exact (proj1 (proj1 (calculate_delay_normal_range Sample.rand Sample.log Sample.pow
                         (default_mu 45 55) (default_sigma (default_mu 45 55)) 45 55
                         Sample.seeded) 10%nat 50 _ _ Hrun)).
Defined.

(** C8 fails on the code.  [main] started with the arguments [0 0 5 10 n]
    takes the mean 0 and the deviation 0 from the click range 0..0 and
    accepts them; for a pointer motion it then calls [calculate_delay (5, 10)],
    and whatever the generator and libm give, every draw is 0 (or [INT_MIN])
    and the loop never returns: no fuel is enough. *)
Lemma redraw_forever_counterexample :
  illegal_mu (default_mu 0 0) 0 0 = false /\
  delay_range (Config 0 0 5 10 normal (default_mu 0 0) (default_sigma (default_mu 0 0))) EV_REL
  = Some (5, 10) /\
  (forall (rng : Type) (rand : rng -> Z * rng) (log : double -> double)
          (pow : double -> double -> double) (fuel : nat) (st : rstate rng),
     calculate_delay rand log pow fuel normal
       (default_mu 0 0) (default_sigma (default_mu 0 0)) 5 10 st = None).
Proof.
  split; [reflexivity | split; [reflexivity |]].
  intros rng rand log pow fuel st.
  change (default_mu 0 0) with (S754_zero false).
  change (default_sigma (S754_zero false)) with (S754_zero false).
  unfold calculate_delay.
  change (5 =? 10) with false. change (normal =? linear) with false.
  change (normal =? normal) with true. cbv beta iota.
  now rewrite redraw_loop_zero by lia.
Qed.

(** * Further properties of the code *)

(** ** The vector of logged events *)

Lemma append_to_vector_capacity (v : event_vector) (e : delayed_event) :
  0 < size v -> used v <= size v ->
  used (append_to_vector v e) = used v + 1 /\
  used (append_to_vector v e) <= size (append_to_vector v e) /\
  (size (append_to_vector v e) = size v \/ size (append_to_vector v e) = 2 * size v).
Proof.
  intros Hpos Hle. unfold append_to_vector, used in *. cbn [size events].
  rewrite length_app. cbn [length].
  destruct (Z.geb_spec (Z.of_nat (length (events v))) (size v)); lia.
Qed.

(** X1.  The vector never outgrows its allocation: from a capacity that is
    positive and not yet exceeded, any number of [append_to_vector] keeps
    [used <= size], holds the events in the order they were appended, and
    the capacity is the initial one doubled some number of times. *)
Theorem vector_keeps_capacity :
  forall (l : list delayed_event) (v : event_vector),
    0 < size v -> used v <= size v ->
    events (append_all v l) = events v ++ l /\
    used (append_all v l) = used v + Z.of_nat (length l) /\
    used (append_all v l) <= size (append_all v l) /\
    exists k : nat, size (append_all v l) = size v * 2 ^ Z.of_nat k.
Proof.
  unfold append_all.
  induction l as [| e l IH]; intros v Hpos Hle; cbn [fold_left].
  - rewrite app_nil_r. cbn [length]. repeat split; try lia. exists 0%nat. cbn. lia.
  - destruct (append_to_vector_capacity v e Hpos Hle) as (Hused & Hcap & Hsize).
    destruct (IH (append_to_vector v e)) as (Hev & Hu & Hc & k & Hk); [lia | exact Hcap |].
    rewrite Hev, Hu, Hused. cbn [append_to_vector events length].
    rewrite <- app_assoc. cbn [app].
    repeat split; try lia.
    destruct Hsize as [Hs | Hs].
    + exists k. now rewrite Hk, Hs.
    + exists (S k). rewrite Hk, Hs, Nat2Z.inj_succ, Z.pow_succ_r by lia. lia.
Qed.

Lemma vector_keeps_capacity_witness :
  events (append_all (init_vector 10) (events Sample.logged))
  = events (init_vector 10) ++ events Sample.logged /\
  used (append_all (init_vector 10) (events Sample.logged))
  = used (init_vector 10) + Z.of_nat (length (events Sample.logged)) /\
  used (append_all (init_vector 10) (events Sample.logged))
  <= size (append_all (init_vector 10) (events Sample.logged)) /\
  exists k : nat,
    size (append_all (init_vector 10) (events Sample.logged))
    = size (init_vector 10) * 2 ^ Z.of_nat k.
Proof.
  apply (vector_keeps_capacity (events Sample.logged) (init_vector 10)).
  - reflexivity.
  - discriminate.
Defined.

(** ** The capture loop without SIGINT *)

Section LoopFacts.

Context {rng : Type}.
Variable rand : rng -> Z * rng.
Variable log : double -> double.
Variable pow : double -> double -> double.

(** One scheduled event: the thread and the log record carry the same
    payload, and the record is stamped from the event's time. *)
Lemma schedule_lockstep fuel block (p p' : proc rng) :
  schedule rand log pow fuel block p = Some p' ->
  exists e r,
    threads p' = threads p ++ [e] /\ events (ev p') = events (ev p) ++ [r] /\
    payload r = payload e /\ timestamp r = stamp (inputEvent p) /\
    type e = ie_type (inputEvent p) /\
    fs p' = fs p /\ cfg p' = cfg p /\
    fifo_path p' = fifo_path p /\ fifo_thread p' = fifo_thread p.
Proof.
  unfold schedule. intros H.
  destruct (match delay_range (cfg p) (ie_type (inputEvent p)) with
            | Some (lo, hi) => _
            | None => _
            end) as [[[d s] out] |]; [| discriminate].
  injection H as <-. eexists _, _. cbn. repeat split; reflexivity.
Qed.

(** X2.  Until SIGINT arrives the capture loop only reads the device, starts
    threads and appends to the vector: it leaves the file system (so the log
    file), the configuration and the FIFO alone, it ends only by [main]
    returning 0 or stays running (or hung in [calculate_delay]), and the log
    vector grows in step with the threads: one record per thread, in the
    order of creation, with the same type, code, value and delay. *)
Theorem capture_loop_lockstep :
  forall (fuel : nat) (tr : list stimulus) (p : proc rng),
    Forall (fun s => s <> Sigint) tr ->
    exists new recs,
      threads (snd (capture_loop rand log pow fuel tr p)) = threads p ++ new /\
      events (ev (snd (capture_loop rand log pow fuel tr p))) = events (ev p) ++ recs /\
      map payload recs = map payload new /\
      fs (snd (capture_loop rand log pow fuel tr p)) = fs p /\
      cfg (snd (capture_loop rand log pow fuel tr p)) = cfg p /\
      fifo_path (snd (capture_loop rand log pow fuel tr p)) = fifo_path p /\
      fifo_thread (snd (capture_loop rand log pow fuel tr p)) = fifo_thread p /\
      (fst (capture_loop rand log pow fuel tr p) = Running \/
       fst (capture_loop rand log pow fuel tr p) = Returned 0 \/
       fst (capture_loop rand log pow fuel tr p) = Hung).
Proof.
  intros fuel tr. induction tr as [| [ret block |] tr IH]; intros p Hsig;
    cbn [capture_loop].
  - exists [], []. rewrite !app_nil_r. cbn. repeat split; auto.
  - apply Forall_cons in Hsig as [_ Hsig].
    destruct (ret =? 0).
    { exists [], []. rewrite !app_nil_r. cbn. repeat split; auto. }
    destruct (get_event (dev p) (inputEvent p)) as [[[[err ie] dev'] out] |].
    2:{ exists [], []. rewrite !app_nil_r. cbn. repeat split; auto. }
    set (p1 := Proc (cfg p) (rs p) (ev p) ie dev' (threads p) (fs p)
                    (stdout p ++ out) (fifo_path p) (fifo_thread p)).
    destruct ((err >? -1) && negb (ie_type ie =? EV_SYN)).
    + destruct (schedule rand log pow fuel block p1) as [p2 |] eqn:Hs.
      * apply schedule_lockstep in Hs
          as (e & r & Hth & Hev & Hpay & _ & _ & Hfs & Hcfg & Hfp & Hft).
        destruct (IH p2 Hsig) as (new & recs & H1 & H2 & H3 & H4 & H5 & H6 & H7 & H8).
        exists (e :: new), (r :: recs).
        rewrite H1, H2, H4, H5, H6, H7, Hth, Hev, Hfs, Hcfg, Hfp, Hft.
        rewrite <- !app_assoc. cbn. rewrite H3, Hpay. repeat split; auto.
      * exists [], []. rewrite !app_nil_r. cbn. repeat split; auto.
    + destruct (IH p1 Hsig) as (new & recs & H1 & H2 & H3 & H4 & H5 & H6 & H7 & H8).
      exists new, recs. repeat split; assumption.
  - apply Forall_cons in Hsig as [Hne _]. contradiction.
Qed.

(** X3.  A read that fails with an error other than [ENODEV] is taken for a
    success: [get_event] returns 1 and the buffer still holds the event of
    the round before, which the loop schedules once more (unless it is a
    marker): a second thread for the same type, code and value. *)
Theorem failed_read_repeats_event :
  forall (fuel : nat) (ret : Z) (block : delayed_event) (p : proc rng) (r : reply)
         (d : list reply),
    ret <> 0 -> dev p = r :: d ->
    rc r <> LIBEVDEV_READ_STATUS_SYNC -> rc r <> - ENODEV -> fetched r = None ->
    ie_type (inputEvent p) <> EV_SYN ->
    get_event (dev p) (inputEvent p) = Some (1, inputEvent p, d, []) /\
    (fst (capture_loop rand log pow fuel [RtcRead ret block] p) = Hung \/
     exists dl,
       threads (snd (capture_loop rand log pow fuel [RtcRead ret block] p))
       = threads p ++ [DelayedEvent virtual_fd (ie_type (inputEvent p))
                         (ie_code (inputEvent p)) (ie_value (inputEvent p))
                         dl (timestamp block)]).
Proof.
  intros fuel ret block p r d Hret Hdev Hsync Hgone Hnone Hty.
  assert (get_event (dev p) (inputEvent p) = Some (1, inputEvent p, d, [])) as Hget.
  { rewrite Hdev. unfold get_event, store. rewrite Hnone.
    destruct (Z.eqb_spec (rc r) LIBEVDEV_READ_STATUS_SYNC); [contradiction |].
    destruct (Z.eqb_spec (rc r) (- ENODEV)); [contradiction | reflexivity]. }
  split; [exact Hget |].
  cbn [capture_loop]. destruct (Z.eqb_spec ret 0); [contradiction |].
  rewrite Hget. cbn [Z.gtb Z.compare andb].
  destruct (Z.eqb_spec (ie_type (inputEvent p)) EV_SYN); [contradiction |]. cbn [negb].
  destruct (schedule _ _ _ _ _ _) as [p2 |] eqn:Hs; [right | now left].
  apply schedule_spec in Hs as (dl & Hth & _). cbn in Hth. cbn [snd].
  exists dl. exact Hth.
Qed.

End LoopFacts.

Lemma capture_loop_lockstep_witness :
  exists new recs,
    threads (snd (Sample.run 1 (Sample.ticks 2)
                    (Sample.start Sample.constant_click 1 ∅
                       [Reply 0 (Some Sample.key_down); Reply 0 (Some Sample.report)])))
    = [] ++ new /\
    events (ev (snd (Sample.run 1 (Sample.ticks 2)
                       (Sample.start Sample.constant_click 1 ∅
                          [Reply 0 (Some Sample.key_down); Reply 0 (Some Sample.report)]))))
    = [] ++ recs /\
    map payload recs = map payload new /\
    fs (snd (Sample.run 1 (Sample.ticks 2)
               (Sample.start Sample.constant_click 1 ∅
                  [Reply 0 (Some Sample.key_down); Reply 0 (Some Sample.report)]))) = ∅ /\
    cfg (snd (Sample.run 1 (Sample.ticks 2)
                (Sample.start Sample.constant_click 1 ∅
                   [Reply 0 (Some Sample.key_down); Reply 0 (Some Sample.report)])))
    = Sample.constant_click /\
    fifo_path (snd (Sample.run 1 (Sample.ticks 2)
                      (Sample.start Sample.constant_click 1 ∅
                         [Reply 0 (Some Sample.key_down); Reply 0 (Some Sample.report)])))
    = None /\
    fifo_thread (snd (Sample.run 1 (Sample.ticks 2)
                        (Sample.start Sample.constant_click 1 ∅
                           [Reply 0 (Some Sample.key_down); Reply 0 (Some Sample.report)])))
    = false /\
    (fst (Sample.run 1 (Sample.ticks 2)
            (Sample.start Sample.constant_click 1 ∅
               [Reply 0 (Some Sample.key_down); Reply 0 (Some Sample.report)])) = Running \/
     fst (Sample.run 1 (Sample.ticks 2)
            (Sample.start Sample.constant_click 1 ∅
               [Reply 0 (Some Sample.key_down); Reply 0 (Some Sample.report)])) = Returned 0 \/
     fst (Sample.run 1 (Sample.ticks 2)
            (Sample.start Sample.constant_click 1 ∅
               [Reply 0 (Some Sample.key_down); Reply 0 (Some Sample.report)])) = Hung).
Proof.
  apply (capture_loop_lockstep Sample.rand Sample.log Sample.pow 1 (Sample.ticks 2)
           (Sample.start Sample.constant_click 1 ∅
              [Reply 0 (Some Sample.key_down); Reply 0 (Some Sample.report)])).
  repeat constructor; discriminate.
Defined.

Lemma failed_read_repeats_event_witness :
  get_event [Reply (-4) None] Sample.key_down = Some (1, Sample.key_down, [], []) /\
  (fst (Sample.run 1 [RtcRead (-1) Sample.zeroed]
          (Proc Sample.constant_click Sample.seeded (init_vector 10) Sample.key_down
                [Reply (-4) None] [] ∅ [] None false)) = Hung \/
   exists dl,
     threads (snd (Sample.run 1 [RtcRead (-1) Sample.zeroed]
                     (Proc Sample.constant_click Sample.seeded (init_vector 10)
                           Sample.key_down [Reply (-4) None] [] ∅ [] None false)))
     = [] ++ [DelayedEvent virtual_fd EV_KEY 30 1 dl 0]).
Proof.
  apply (failed_read_repeats_event Sample.rand Sample.log Sample.pow 1 (-1) Sample.zeroed
           (Proc Sample.constant_click Sample.seeded (init_vector 10) Sample.key_down
                 [Reply (-4) None] [] ∅ [] None false) (Reply (-4) None) []);
    (reflexivity || discriminate).
Defined.

(** ** Resynchronisation in [get_event] *)

Lemma last_of_nonempty {A} (l : list A) : forall x a b,
  List.last (x :: l) a = List.last (x :: l) b.
Proof.
  induction l as [| y l IH]; intros x a b; [reflexivity |].
  change (List.last (y :: l) a = List.last (y :: l) b). apply IH.
Qed.

Lemma resync_last (es : list input_event) : forall (r : reply) d e,
  rc r <> LIBEVDEV_READ_STATUS_SYNC ->
  resync (map sync_reply es ++ r :: d) e = Some (rc r, store r (List.last es e), d).
Proof.
  induction es as [| e1 es IH]; intros r d e Hrc; cbn [map app resync].
  - destruct (Z.eqb_spec (rc r) LIBEVDEV_READ_STATUS_SYNC); [contradiction | reflexivity].
  - unfold sync_reply at 1. cbn [rc]. rewrite Z.eqb_refl.
    rewrite (IH r d _ Hrc). unfold store at 2. cbn [fetched].
    destruct es as [| e2 es]; [reflexivity |].
    change (List.last (e1 :: e2 :: es) e) with (List.last (e2 :: es) e).
    now rewrite (last_of_nonempty es e2 _ e).
Qed.

(** X4.  When the device reports dropped events, [get_event] reads on until the
    status is no longer SYNC and hands back one event only: of all the
    events the resynchronisation delivered, the last one stored, the others
    are lost to the daemon.  It prints the warning once, returns -1 if the
    last status is [-ENODEV] and 1 otherwise, and leaves the later answers. *)
Theorem resync_keeps_last_event :
  forall (first : input_event) (es : list input_event) (r : reply) (d : list reply)
         (e0 : input_event),
    rc r <> LIBEVDEV_READ_STATUS_SYNC ->
    get_event (sync_reply first :: map sync_reply es ++ r :: d) e0
    = Some (if rc r =? - ENODEV then -1 else 1,
            store r (List.last es first), d,
            syn_dropped_msg :: (if rc r =? - ENODEV then [disconnected_msg] else [])).
Proof.
  intros first es r d e0 Hrc. unfold get_event.
  change (rc (sync_reply first) =? LIBEVDEV_READ_STATUS_SYNC) with true. cbv beta iota.
  change (store (sync_reply first) e0) with first.
  rewrite (resync_last es r d first Hrc).
  destruct (Z.eqb_spec (rc r) (- ENODEV)) as [Heq | Hne].
  - rewrite Heq. reflexivity.
  - reflexivity.
Qed.

Lemma resync_keeps_last_event_witness :
  get_event (sync_reply Sample.key_down
               :: map sync_reply [Sample.scan_code; Sample.report]
               ++ Reply (-11) None :: [Reply 0 (Some Sample.key_down)])
            Sample.key_down
  = Some (1, Sample.report, [Reply 0 (Some Sample.key_down)], [syn_dropped_msg]).
Proof.
  apply (resync_keeps_last_event Sample.key_down [Sample.scan_code; Sample.report]
           (Reply (-11) None) [Reply 0 (Some Sample.key_down)] Sample.key_down).
  discriminate.
Defined.

(** ** The listener over many messages *)

(** A round leaves the configuration as it was or sets the four delays to
    received values with each max raised to its min. *)
Lemma handle_fifo_round_config msg c l c' l' out :
  handle_fifo_round msg c l = Some (c', l', out) ->
  c' = c \/ exists q, c' = Message.replaced c q.
Proof.
  unfold handle_fifo_round. destruct (read_fifo msg (buffer l)) as [n buf].
  destruct (n <=? 0); [intros [= <- _ _]; now left |].
  destruct (Scan.c_str buf) as [s |]; [| discriminate].
  destruct (Scan.sscanf_4d s (parsed l)) as [k b].
  destruct (k =? 4); intros [= <- _ _]; [right | now left].
  exists b. apply apply_set_delay_times.
Qed.

Lemma replaced_ordered c q : ordered (Message.replaced c q).
Proof.
  destruct q as [[[a b] m] n]. unfold ordered, Message.replaced. cbn. lia.
Qed.

(** X5.  Whatever messages arrive, the listener never touches the distribution
    or the mean and deviation (which [main] checked against the click range
    it had then), and once it has changed the delays both ranges are in
    order: [min <= max].  So ranges that were in order stay in order. *)
Theorem listener_keeps_ranges_ordered :
  forall (msgs : list (list ascii)) (c : config) (l : listener) c' l' out,
    handle_fifo msgs c l = Some (c', l', out) ->
    distribution c' = distribution c /\ mu c' = mu c /\ sigma c' = sigma c /\
    (c' = c \/ ordered c') /\
    (ordered c -> ordered c').
Proof.
  induction msgs as [| msg msgs IH]; intros c l c' l' out H; cbn [handle_fifo] in H.
  - injection H as <- _ _. split; [| split; [| split; [| split]]]; auto.
  - destruct (handle_fifo_round msg c l) as [[[c1 l1] o1] |] eqn:Hr; [| discriminate].
    destruct (handle_fifo msgs c1 l1) as [[[c2 l2] o2] |] eqn:Hrest; [| discriminate].
    injection H as <- _ _.
    destruct (IH c1 l1 c2 l2 o2 Hrest) as (Hd & Hm & Hs & Hchg & Hord).
    apply handle_fifo_round_config in Hr.
    assert (distribution c1 = distribution c /\ mu c1 = mu c /\ sigma c1 = sigma c /\
            (c1 = c \/ ordered c1)) as (Hd1 & Hm1 & Hs1 & Hchg1).
    { destruct Hr as [-> | [q ->]]; [split; [| split; [| split]]; auto |].
      destruct q as [[[a b] m] n]. split; [| split; [| split]]; try reflexivity.
      right. apply (replaced_ordered c (a, b, m, n)). }
    rewrite Hd, Hm, Hs. split; [| split; [| split; [| split]]]; try assumption.
    + destruct Hchg as [-> | Ho]; [exact Hchg1 | now right].
    + intros Hc. apply Hord. destruct Hchg1 as [-> | Ho]; assumption.
Qed.

Lemma listener_keeps_ranges_ordered_witness :
  exists c' l' out,
    handle_fifo [Sample.echo "30 20 7 -4"; []; Sample.echo "x"]
                Sample.constant_click Sample.fresh_listener = Some (c', l', out) /\
    distribution c' = distribution Sample.constant_click /\
    mu c' = mu Sample.constant_click /\ sigma c' = sigma Sample.constant_click /\
    (c' = Sample.constant_click \/ ordered c') /\
    (ordered Sample.constant_click -> ordered c').
Proof.
  eexists _, _, _. split; [vm_compute; reflexivity |].
  eapply (listener_keeps_ranges_ordered
            [Sample.echo "30 20 7 -4"; []; Sample.echo "x"]
            Sample.constant_click Sample.fresh_listener).
  vm_compute. reflexivity.
Defined.

(** ** The buffer of the listener *)

Lemma c_str_none (a : list ascii) :
  Forall (fun c => Ascii.eqb c Scan.NUL = false) a -> Scan.c_str a = None.
Proof.
  induction 1 as [| c a Hc _ IH]; [reflexivity |].
  cbn [Scan.c_str]. now rewrite Hc, IH.
Qed.

Lemma c_str_app (m rest : list ascii) :
  Forall (fun c => Ascii.eqb c Scan.NUL = false) m ->
  Scan.c_str (m ++ rest)
  = match Scan.c_str rest with
    | Some s => Some (m ++ s)
    | None => None
    end.
Proof.
  induction 1 as [| c m Hc _ IH]; cbn [app Scan.c_str].
  - now destruct (Scan.c_str rest).
  - rewrite Hc, IH. now destruct (Scan.c_str rest).
Qed.

(** X6.  A message of 80 bytes or more with no [NUL] among its first 80 fills the
    whole buffer: [sscanf] finds no end of string inside the array, and the
    round has no defined result. *)
Theorem long_message_overruns_buffer :
  forall (msg : list ascii) (c : config) (l : listener),
    (length (buffer l) <= 80)%nat -> (80 <= length msg)%nat ->
    Forall (fun c => Ascii.eqb c Scan.NUL = false) (firstn 80 msg) ->
    fst (read_fifo msg (buffer l)) = 80 /\
    handle_fifo_round msg c l = None.
Proof.
  intros msg c l Hbuf Hlen Hnul.
  assert (length (firstn 80 msg) = 80%nat) as Hgot by (rewrite length_firstn; lia).
  split; [unfold read_fifo; cbn [fst]; now rewrite Hgot |].
  unfold handle_fifo_round, read_fifo. rewrite Hgot. cbn [Z.of_nat Z.leb Z.compare].
  rewrite skipn_all2 by lia. rewrite app_nil_r.
  now rewrite c_str_none.
Qed.

Lemma long_message_overruns_buffer_witness :
  fst (read_fifo (repeat "1"%char 80) (buffer Sample.fresh_listener)) = 80 /\
  handle_fifo_round (repeat "1"%char 80) Sample.constant_click Sample.fresh_listener = None.
Proof.
  apply (long_message_overruns_buffer (repeat "1"%char 80) Sample.constant_click
           Sample.fresh_listener).
  - cbn. lia.
  - cbn. lia.
  - cbn. repeat constructor.
Defined.

(** X7.  [read] stores the bytes of a message and no [NUL] after them: the string
    [sscanf] parses is the message followed by what the buffer held beyond
    it, up to the first [NUL] there.  A short message is thus completed by
    the tail of an earlier, longer one. *)
Theorem message_runs_into_old_bytes :
  forall (msg buf : list ascii),
    (length msg <= 80)%nat ->
    Forall (fun c => Ascii.eqb c Scan.NUL = false) msg ->
    Scan.c_str (snd (read_fifo msg buf))
    = match Scan.c_str (skipn (length msg) buf) with
      | Some old => Some (msg ++ old)
      | None => None
      end.
Proof.
  intros msg buf Hlen Hnul. unfold read_fifo. cbn [snd].
  rewrite firstn_all2 by lia. now apply c_str_app.
Qed.

Lemma message_runs_into_old_bytes_witness :
  Scan.c_str (snd (read_fifo (Sample.echo "10 20 0")
                     (snd (read_fifo (Sample.echo "10 20 30 40")
                             (buffer Sample.fresh_listener)))))
  = Some (Sample.echo "10 20 0" ++ list_ascii_of_string " 40" ++ [ascii_of_nat 10]).
Proof.
  rewrite (message_runs_into_old_bytes (Sample.echo "10 20 0")).
  - reflexivity.
  - cbn. lia.
  - cbn. repeat constructor.
Defined.

(** ** A message sent twice *)

Lemma read_fifo_twice (msg buf : list ascii) :
  read_fifo msg (snd (read_fifo msg buf)) = read_fifo msg buf.
Proof.
  unfold read_fifo. cbn [snd]. f_equal. f_equal.
  now rewrite skipn_app, skipn_all, Nat.sub_diag.
Qed.

Lemma sscanf_4d_twice (s : list ascii) (old : Z * Z * Z * Z) :
  Scan.sscanf_4d s (snd (Scan.sscanf_4d s old)) = Scan.sscanf_4d s old.
Proof.
  destruct old as [[[a0 b0] c0] d0]. unfold Scan.sscanf_4d.
  destruct (Scan.scan_d s) as [a r1 | |]; [| reflexivity ..].
  destruct (Scan.scan_d r1) as [b r2 | |]; [| reflexivity ..].
  destruct (Scan.scan_d r2) as [m r3 | |]; [| reflexivity ..].
  destruct (Scan.scan_d r3) as [n r4 | |]; reflexivity.
Qed.

Lemma replaced_twice c q : Message.replaced (Message.replaced c q) q = Message.replaced c q.
Proof.
  now destruct q as [[[a b] m] n].
Qed.

(** X8.  A round is idempotent: when the same message arrives again the listener
    ends with the same configuration and locals and prints the same line.
    Resending a message, accepted or rejected, never changes anything. *)
Theorem same_message_again :
  forall (msg : list ascii) (c : config) (l : listener) c1 l1 out,
    handle_fifo_round msg c l = Some (c1, l1, out) ->
    handle_fifo_round msg c1 l1 = Some (c1, l1, out).
Proof.
  intros msg c l c1 l1 out. unfold handle_fifo_round.
  destruct (read_fifo msg (buffer l)) as [n buf] eqn:Hread.
  assert (read_fifo msg buf = (n, buf)) as Hagain.
  { pose proof (read_fifo_twice msg (buffer l)) as H. now rewrite Hread in H. }
  destruct (n <=? 0) eqn:Hn.
  - intros [= <- <- <-]. cbn [buffer parsed]. now rewrite Hagain, Hn.
  - destruct (Scan.c_str buf) as [s |] eqn:Hs; [| discriminate].
    destruct (Scan.sscanf_4d s (parsed l)) as [k b] eqn:Hscan.
    assert (Scan.sscanf_4d s b = (k, b)) as Hscan'.
    { pose proof (sscanf_4d_twice s (parsed l)) as H. now rewrite Hscan in H. }
    destruct (k =? 4) eqn:Hk; intros [= <- <- <-]; cbn [buffer parsed];
      rewrite Hagain, Hn, Hs, Hscan', Hk; [| reflexivity].
    now rewrite !apply_set_delay_times, replaced_twice.
Qed.

Lemma same_message_again_witness :
  handle_fifo_round (Sample.echo "30 20 7 -4")
    (Message.replaced Sample.constant_click (30, 20, 7, -4))
    (Listener (snd (read_fifo (Sample.echo "30 20 7 -4") (buffer Sample.fresh_listener)))
              (30, 20, 7, -4))
  = Some (Message.replaced Sample.constant_click (30, 20, 7, -4),
          Listener (snd (read_fifo (Sample.echo "30 20 7 -4") (buffer Sample.fresh_listener)))
                   (30, 20, 7, -4),
          [Message.accepted (Message.replaced Sample.constant_click (30, 20, 7, -4))]).
Proof.
  apply (same_message_again (Sample.echo "30 20 7 -4") Sample.constant_click
           Sample.fresh_listener).
  vm_compute. reflexivity.
Defined.

(** ** Creating and removing the FIFO *)








(** X10.  [onExit] with the listener running: the vector is flushed to the log
    (created with the header when absent), the FIFO is unlinked, the process
    ends with [exit (0)], and no path other than the log and the FIFO
    changes. *)
Theorem onExit_cleans_up :
  forall {rng : Type} (p : proc rng) (path text : string),
    fifo_thread p = true -> fifo_path p = Some path -> path <> log_file ->
    fs p !! path = Some Fifo ->
    fs p !! log_file = None /\ text = header \/ fs p !! log_file = Some (File text) ->
    fst (onExit p) = Exited 0 /\
    events (ev (snd (onExit p))) = [] /\
    fs (snd (onExit p)) !! log_file = Some (File (text +:+ Log.rows (events (ev p)))) /\
    fs (snd (onExit p)) !! path = None /\
    forall other, other <> path -> other <> log_file ->
      fs (snd (onExit p)) !! other = fs p !! other.
Proof.
  intros rng p path text Hth Hpath Hne Hfifo Hlog. unfold onExit.
  assert (write_event_log (ev p) (fs p)
          = Some (free_vector (ev p),
                  <[log_file := File (text +:+ Log.rows (events (ev p)))]> (fs p))) as ->.
  { destruct Hlog as [[Hnone ->] | Hsome].
    - now apply write_event_log_absent.
    - now apply write_event_log_present. }
  rewrite Hth, Hpath. cbn [fst snd ev fs events free_vector].
  unfold unlink. rewrite lookup_insert_ne by congruence. rewrite Hfifo.
  split; [reflexivity | split; [reflexivity | split; [| split]]].
  - rewrite lookup_delete_ne by congruence. apply lookup_insert_eq.
  - apply lookup_delete_eq.
  - intros other H1 H2. rewrite lookup_delete_ne by congruence.
    now rewrite lookup_insert_ne by congruence.
Qed.

Lemma onExit_cleans_up_witness :
  fst (onExit listening) = Exited 0 /\
  events (ev (snd (onExit listening))) = [] /\
  fs (snd (onExit listening)) !! log_file
  = Some (File (header +:+ Log.rows (events (ev listening)))) /\
  fs (snd (onExit listening)) !! "none" = None /\
  forall other, other <> "none" -> other <> log_file ->
    fs (snd (onExit listening)) !! other = fs listening !! other.
Proof.
  apply (onExit_cleans_up listening "none" header).
  - reflexivity.
  - reflexivity.
  - discriminate.
  - apply lookup_singleton_eq.
  - left. split; [| reflexivity]. apply lookup_singleton_ne. discriminate.
Defined.

(** ** Flushing more than once *)

(** X11.  Two flushes in a row write what one flush of both vectors writes, the
    rows of the first before those of the second and the header at most once;
    and flushing a vector again right after its flush adds nothing. *)
Theorem flushes_compose :
  forall (v1 v2 : event_vector) (fs : gmap string node),
    fs !! log_file = None \/ (exists text, fs !! log_file = Some (File text)) ->
    exists fs1 fs2,
      write_event_log v1 fs = Some (free_vector v1, fs1) /\
      write_event_log v2 fs1 = Some (free_vector v2, fs2) /\
      write_event_log (EventVector (size v1) (events v1 ++ events v2)) fs
      = Some (free_vector v1, fs2) /\
      write_event_log (free_vector v1) fs1 = Some (free_vector v1, fs1).
Proof.
  intros v1 v2 fs Hlog.
  assert (exists base,
            write_event_log v1 fs
            = Some (free_vector v1, <[log_file := File (base +:+ Log.rows (events v1))]> fs) /\
            write_event_log (EventVector (size v1) (events v1 ++ events v2)) fs
            = Some (free_vector v1,
                    <[log_file := File (base +:+ Log.rows (events v1 ++ events v2))]> fs))
    as (base & H1 & H12).
  { destruct Hlog as [Hnone | [text Hsome]].
    - exists header. split; [now apply write_event_log_absent |].
      exact (write_event_log_absent
               (EventVector (size v1) (events v1 ++ events v2)) fs Hnone).
    - exists text. split; [now apply write_event_log_present |].
      exact (write_event_log_present
               (EventVector (size v1) (events v1 ++ events v2)) fs text Hsome). }
  eexists _, _. split; [exact H1 |].
  split; [apply write_event_log_present, lookup_insert_eq |].
  split.
  - rewrite H12, insert_insert_eq, LogFacts.rows_app, LogFacts.append_assoc. reflexivity.
  - rewrite (write_event_log_present _ _ _ (lookup_insert_eq _ _ _)).
    cbn [free_vector events]. change (Log.rows []) with "".
    now rewrite LogFacts.append_nil_r, insert_insert_eq.
Qed.

Lemma flushes_compose_witness :
  exists fs1 fs2,
    write_event_log Sample.logged ∅ = Some (free_vector Sample.logged, fs1) /\
    write_event_log Sample.logged fs1 = Some (free_vector Sample.logged, fs2) /\
    write_event_log (EventVector (size Sample.logged)
                       (events Sample.logged ++ events Sample.logged)) ∅
    = Some (free_vector Sample.logged, fs2) /\
    write_event_log (free_vector Sample.logged) fs1 = Some (free_vector Sample.logged, fs1).
Proof.
  apply (flushes_compose Sample.logged Sample.logged ∅).
  left. apply lookup_empty.
Defined.

(** ** More on the delay model *)

Section DrawFacts.

Context {rng : Type}.
Variable rand : rng -> Z * rng.
Variable log : double -> double.
Variable pow : double -> double -> double.

(** X12.  [randn] produces its values in pairs: after a call that ran the polar
    loop (the flag [call] was 0), the next call takes no random number and
    runs no loop, so it returns with any fuel; it returns the value made
    from the [X2] the first call saved and sets the flag back to 0. *)
Theorem randn_second_of_a_pair :
  forall (fuel fuel' : nat) (m s : double) (st st1 : rstate rng) (x : Z),
    call st = 0 ->
    randn rand log pow fuel m s st = Some (x, st1) ->
    call st1 = 1 /\
    randn rand log pow fuel' m s st1
    = Some (Dbl.to_int (Dbl.add m (Dbl.mul s (X2 st1))),
            RState (gen st1) 0 (X1 st1) (X2 st1)).
Proof.
  intros fuel fuel' m s st st1 x Hcall. unfold randn at 1. rewrite Hcall.
  change (0 =? 1) with false. cbv beta iota.
  destruct (polar_loop rand pow fuel (gen st)) as [[[[U1 U2] W] g] |]; [| discriminate].
  intros [= _ <-]. cbn [call]. split; [reflexivity |].
  unfold randn. cbn [call gen X1 X2]. reflexivity.
Qed.

(** X13.  With the bounds swapped ([max < min]) the uniform mode still
    returns.  For [int] bounds with [min + (min - max) - 1 <= INT_MAX], so
    that the sum does not overflow, and a [rand ()] within [0 .. RAND_MAX],
    its delays start at [min] and go up, below [min + (min - max)]; none of
    them lies in [max .. min - 1]. *)
Theorem calculate_delay_linear_swapped :
  forall (fuel : nat) (m s : double) (lo hi : Z) (st : rstate rng),
    (forall g, 0 <= fst (rand g) <= RAND_MAX) ->
    CInt.is_int lo -> CInt.is_int hi -> hi < lo -> lo + (lo - hi) - 1 <= CInt.INT_MAX ->
    exists x st',
      calculate_delay rand log pow fuel linear m s lo hi st = Some (x, st', []) /\
      lo <= x < lo + (lo - hi).
Proof.
  intros fuel m s lo hi st Hrand Hlo Hhi Hlt Hmax.
  unfold calculate_delay.
  destruct (Z.eqb_spec lo hi) as [-> | _]; [lia |].
  rewrite Z.eqb_refl.
  pose proof (Hrand (gen st)) as Hr.
  destruct (rand (gen st)) as [r g]. cbn [fst] in Hr.
  eexists _, _. split; [reflexivity |].
  unfold CInt.is_int, CInt.INT_MIN, CInt.INT_MAX in *.
  assert (CInt.to_int (hi - lo) = hi - lo) as Hd
    by (apply CIntFacts.to_int_id; unfold CInt.is_int, CInt.INT_MIN, CInt.INT_MAX; lia).
  rewrite Hd.
  pose proof (rem_bound r (hi - lo) (proj1 Hr)) as Hq.
  rewrite CIntFacts.to_int_id;
    unfold CInt.is_int, CInt.INT_MIN, CInt.INT_MAX; lia.
Qed.

End DrawFacts.

Lemma randn_second_of_a_pair_witness :
  exists x st1,
    randn Sample.rand Sample.log Sample.pow 10
          (default_mu 45 55) (default_sigma (default_mu 45 55)) Sample.seeded
    = Some (x, st1) /\
    call st1 = 1 /\
    randn Sample.rand Sample.log Sample.pow 0
          (default_mu 45 55) (default_sigma (default_mu 45 55)) st1
    = Some (Dbl.to_int (Dbl.add (default_mu 45 55)
                                (Dbl.mul (default_sigma (default_mu 45 55)) (X2 st1))),
            RState (gen st1) 0 (X1 st1) (X2 st1)).
Proof.
  eexists _, _. split; [vm_compute; reflexivity |].
  eapply (randn_second_of_a_pair Sample.rand Sample.log Sample.pow 10 0
            (default_mu 45 55) (default_sigma (default_mu 45 55)) Sample.seeded).
  - reflexivity.
  - vm_compute. reflexivity.
Defined.

Lemma calculate_delay_linear_swapped_witness :
  exists x st',
    calculate_delay Sample.rand Sample.log Sample.pow 0 linear (Dbl.of_Z 15) (Dbl.of_Z 1)
                    20 10 Sample.seeded
    = Some (x, st', []) /\
    20 <= x < 20 + (20 - 10).
Proof.
  apply (calculate_delay_linear_swapped Sample.rand Sample.log Sample.pow 0
           (Dbl.of_Z 15) (Dbl.of_Z 1) 20 10 Sample.seeded).
  - exact sample_rand_range.
  - unfold CInt.is_int, CInt.INT_MIN, CInt.INT_MAX. lia.
  - unfold CInt.is_int, CInt.INT_MIN, CInt.INT_MAX. lia.
  - lia.
  - unfold CInt.INT_MAX. lia.
Defined.

(** ** The sleep of a timer thread *)

(** X14.  The thread of an event sleeps [usleep_arg] microseconds first.  A
    negative delay does not mean "no sleep": [usleep] takes the product as
    an unsigned number, so a delay [-2147483 <= d < 0] (such as the [-1]
    the normal mode returns when the range contains it) sleeps
    [4294967296 + 1000 d] microseconds, more than 35 minutes. *)
Theorem negative_delay_sleeps_long :
  forall (e : delayed_event) (rc1 : Z),
    -2147483 <= delay e < 0 ->
    (exists rest,
       invoke_delayed_evdev_event e rc1 = Usleep (usleep_arg e) :: rest) /\
    usleep_arg e = 4294967296 + 1000 * delay e /\
    2147484296 <= usleep_arg e.
Proof.
  intros e rc1 Hd. split; [eexists; reflexivity |].
  unfold usleep_arg.
  rewrite (CIntFacts.to_int_id (delay e))
    by (unfold CInt.is_int, CInt.INT_MIN, CInt.INT_MAX; lia).
  rewrite CIntFacts.to_int_id
    by (unfold CInt.is_int, CInt.INT_MIN, CInt.INT_MAX; lia).
  unfold CInt.to_uint, CInt.uwrap. change (2 ^ 32) with 4294967296.
  assert ((delay e * 1000) mod 4294967296 = 4294967296 + 1000 * delay e) as ->.
  { symmetry. apply (Z.mod_unique _ _ (-1)); lia. }
  lia.
Qed.

Lemma negative_delay_sleeps_long_witness :
  (exists rest,
     invoke_delayed_evdev_event (DelayedEvent virtual_fd EV_REL 0 1 (-1) 0) 0
     = Usleep (usleep_arg (DelayedEvent virtual_fd EV_REL 0 1 (-1) 0)) :: rest) /\
  usleep_arg (DelayedEvent virtual_fd EV_REL 0 1 (-1) 0)
  = 4294967296 + 1000 * delay (DelayedEvent virtual_fd EV_REL 0 1 (-1) 0) /\
  2147484296 <= usleep_arg (DelayedEvent virtual_fd EV_REL 0 1 (-1) 0).
Proof.
  apply (negative_delay_sleeps_long (DelayedEvent virtual_fd EV_REL 0 1 (-1) 0) 0).
  cbn. lia.
Defined.

(** ** Integers as doubles *)

Module DblFacts.

(** The number of binary digits of [p]. *)
Lemma digits_bounds p :
  2 ^ (Z.pos (digits2_pos p) - 1) <= Z.pos p < 2 ^ Z.pos (digits2_pos p).
Proof.
  assert (digits2_pos p = Pos.size p) as -> by (induction p; cbn; congruence).
  pose proof (Pos.size_gt p) as Hgt. pose proof (Pos.size_le p) as Hle.
  apply Pos2Z.pos_lt_pos in Hgt. apply Pos2Z.pos_le_pos in Hle.
  rewrite Pos2Z.inj_pow in Hgt, Hle.
  assert (2 ^ Z.pos (Pos.size p) = 2 * 2 ^ (Z.pos (Pos.size p) - 1)) as Hs.
  { rewrite <- Z.pow_succ_r by lia. f_equal. lia. }
  rewrite Hs in Hle. lia.
Qed.

Lemma digits_unique q n :
  2 ^ (n - 1) <= Z.pos q < 2 ^ n -> Z.pos (digits2_pos q) = n.
Proof.
  intros [Hlo Hhi]. pose proof (digits_bounds q) as [Hdlo Hdhi].
  destruct (Z.lt_trichotomy (Z.pos (digits2_pos q)) n) as [Hlt | [Heq | Hgt]];
    [| exact Heq |].
  - assert (2 ^ Z.pos (digits2_pos q) <= 2 ^ (n - 1)) by (apply Z.pow_le_mono_r; lia). lia.
  - assert (0 <= n).
    { destruct (Z_lt_le_dec n 0) as [Hneg |]; [| assumption].
      rewrite (Z.pow_neg_r 2 n Hneg) in Hhi. lia. }
    assert (2 ^ n <= 2 ^ (Z.pos (digits2_pos q) - 1)) by (apply Z.pow_le_mono_r; lia). lia.
Qed.

Lemma digits_le_53 p : Z.pos p < 2 ^ 53 -> Z.pos (digits2_pos p) <= 53.
Proof.
  intros Hp. pose proof (digits_bounds p) as [Hlo _].
  destruct (Z_le_gt_dec (Z.pos (digits2_pos p)) 53) as [| Hgt]; [assumption |].
  assert (2 ^ 53 <= 2 ^ (Z.pos (digits2_pos p) - 1)) by (apply Z.pow_le_mono_r; lia). lia.
Qed.

(** Aligning [p] to 53 digits. *)
Lemma shl_align_53 p :
  Z.pos (digits2_pos p) <= 53 ->
  exists m,
    shl_align p 0 (Z.pos (digits2_pos p) - 53) = (m, Z.pos (digits2_pos p) - 53) /\
    Z.pos m = Z.pos p * 2 ^ (53 - Z.pos (digits2_pos p)).
Proof.
  intros Hd. unfold shl_align. rewrite Z.sub_0_r.
  destruct (Z.pos (digits2_pos p) - 53) as [| k | k] eqn:Hk; [| lia |].
  - exists p. split; [reflexivity |].
    replace (53 - Z.pos (digits2_pos p)) with 0 by lia. lia.
  - exists (Pos.iter xO p k). split; [reflexivity |].
    change (Pos.iter xO p k) with (shift_pos k p).
    rewrite shift_pos_correct. change (Zpower_pos 2 k) with (2 ^ Z.pos k).
    replace (53 - Z.pos (digits2_pos p)) with (Z.pos k) by lia. lia.
Qed.

Lemma binary_round_aux_exact s m e :
  Z.pos (digits2_pos m) = 53 -> -1074 <= e <= 971 ->
  binary_round_aux prec emax s (Z.pos m) e loc_Exact = S754_finite s m e.
Proof.
  intros Hd He.
  assert (shr_fexp prec emax (Z.pos m) e loc_Exact
          = ({| shr_m := Z.pos m; shr_r := false; shr_s := false |}, e)) as Hs.
  { unfold shr_fexp, Zdigits2. rewrite Hd. unfold fexp, emin, prec, emax.
    replace (Z.max (53 + e - 53) (3 - 1024 - 53) - e) with 0 by lia. reflexivity. }
  unfold binary_round_aux. rewrite Hs. cbn [shr_m loc_of_shr_record round_nearest_even].
  rewrite Hs. cbn [shr_m]. unfold emax, prec.
  destruct (Z.leb_spec e (1024 - 53)); [reflexivity | lia].
Qed.

(** The double of a positive integer below 2^53: the integer itself, its
    mantissa shifted to 53 digits. *)
Lemma binary_round_int s p :
  Z.pos p < 2 ^ 53 ->
  exists m,
    binary_round prec emax s p 0 = S754_finite s m (Z.pos (digits2_pos p) - 53) /\
    Z.pos m = Z.pos p * 2 ^ (53 - Z.pos (digits2_pos p)).
Proof.
  intros Hp. pose proof (digits_le_53 p Hp) as Hd.
  pose proof (digits_bounds p) as [Hlo Hhi].
  destruct (shl_align_53 p Hd) as (m & Hal & Hm).
  exists m. split; [| exact Hm].
  unfold binary_round.
  assert (fexp prec emax (Z.pos (digits2_pos p) + 0) = Z.pos (digits2_pos p) - 53) as ->.
  { unfold fexp, emin, prec, emax. lia. }
  rewrite Hal. apply binary_round_aux_exact; [| lia].
  apply digits_unique. rewrite Hm.
  set (d := Z.pos (digits2_pos p)) in *.
  assert (2 ^ 53 = 2 ^ d * 2 ^ (53 - d)) as H53
    by (rewrite <- Z.pow_add_r by lia; f_equal; lia).
  assert (2 ^ (53 - 1) = 2 ^ (d - 1) * 2 ^ (53 - d)) as H52
    by (rewrite <- Z.pow_add_r by lia; f_equal; lia).
  rewrite H53, H52.
  assert (0 < 2 ^ (53 - d)) by (apply Z.pow_pos_nonneg; lia).
  split; [apply Z.mul_le_mono_nonneg_r | apply Z.mul_lt_mono_pos_r]; lia.
Qed.

Lemma compare_aligned p1 p2 m1 m2 :
  Z.pos m1 = Z.pos p1 * 2 ^ (53 - Z.pos (digits2_pos p1)) ->
  Z.pos m2 = Z.pos p2 * 2 ^ (53 - Z.pos (digits2_pos p2)) ->
  match Z.pos (digits2_pos p1) - 53 ?= Z.pos (digits2_pos p2) - 53 with
  | Eq => Pos.compare_cont Eq m1 m2
  | Lt => Lt
  | Gt => Gt
  end = (Z.pos p1 ?= Z.pos p2).
Proof.
  intros H1 H2.
  pose proof (digits_bounds p1) as [Hlo1 Hhi1].
  pose proof (digits_bounds p2) as [Hlo2 Hhi2].
  destruct (Z.compare_spec (Z.pos (digits2_pos p1) - 53) (Z.pos (digits2_pos p2) - 53))
    as [Heq | Hlt | Hgt].
  - rewrite Pos.compare_cont_spec. cbn [Pos.switch_Eq].
    change (m1 ?= m2)%positive with (Z.pos m1 ?= Z.pos m2).
    rewrite H1, H2. replace (Z.pos (digits2_pos p2)) with (Z.pos (digits2_pos p1)) by lia.
    assert (0 < 2 ^ (53 - Z.pos (digits2_pos p1))) by nia.
    set (k := 2 ^ (53 - Z.pos (digits2_pos p1))) in *.
    destruct (Z.compare_spec (Z.pos p1 * k) (Z.pos p2 * k)),
      (Z.compare_spec (Z.pos p1) (Z.pos p2)); try reflexivity; nia.
  - symmetry. apply Z.compare_lt_iff.
    assert (2 ^ Z.pos (digits2_pos p1) <= 2 ^ (Z.pos (digits2_pos p2) - 1))
      by (apply Z.pow_le_mono_r; lia). lia.
  - symmetry. apply Z.compare_gt_iff.
    assert (2 ^ Z.pos (digits2_pos p2) <= 2 ^ (Z.pos (digits2_pos p1) - 1))
      by (apply Z.pow_le_mono_r; lia). lia.
Qed.

(** Integers of magnitude below 2^53 compare as doubles the way they compare
    as integers. *)
Lemma compare_of_Z x y :
  Z.abs x < 2 ^ 53 -> Z.abs y < 2 ^ 53 ->
  SFcompare (Dbl.of_Z x) (Dbl.of_Z y) = Some (x ?= y).
Proof.
  intros Hx Hy. unfold Dbl.of_Z, binary_normalize.
  destruct x as [| p | p], y as [| q | q];
    try (destruct (binary_round_int false p) as (m1 & -> & Hm1); [lia |]);
    try (destruct (binary_round_int true p) as (m1 & -> & Hm1); [lia |]);
    try (destruct (binary_round_int false q) as (m2 & -> & Hm2); [lia |]);
    try (destruct (binary_round_int true q) as (m2 & -> & Hm2); [lia |]);
    cbn [SFcompare]; try reflexivity.
  - now rewrite (compare_aligned p q m1 m2 Hm1 Hm2).
  - f_equal. change (Z.neg p ?= Z.neg q) with (CompOpp (Z.pos p ?= Z.pos q)).
    rewrite <- (compare_aligned p q m1 m2 Hm1 Hm2).
    destruct (Z.pos (digits2_pos p) - 53 ?= Z.pos (digits2_pos q) - 53); reflexivity.
Qed.

Lemma lt_of_Z x y :
  Z.abs x < 2 ^ 53 -> Z.abs y < 2 ^ 53 ->
  Dbl.lt (Dbl.of_Z x) (Dbl.of_Z y) = (x <? y).
Proof.
  intros Hx Hy. unfold Dbl.lt, SFltb. rewrite (compare_of_Z x y Hx Hy).
  unfold Z.ltb. now destruct (x ?= y).
Qed.

Lemma gt_of_Z x y :
  Z.abs x < 2 ^ 53 -> Z.abs y < 2 ^ 53 ->
  Dbl.gt (Dbl.of_Z x) (Dbl.of_Z y) = (y <? x).
Proof.
  intros Hx Hy. unfold Dbl.gt. fold (Dbl.lt (Dbl.of_Z y) (Dbl.of_Z x)).
  now apply lt_of_Z.
Qed.

End DblFacts.

(** ** The start of [main] *)

Lemma init_input_ok d :
  input_ok d -> init_evdev_input d = inl 1 /\ init_evdev_virtual_input d = inl 1.
Proof.
  intros (H1 & H2 & H3 & H4 & H5). unfold init_evdev_input, init_evdev_virtual_input.
  destruct (Z.ltb_spec (open_event d) 0); [lia |].
  destruct (Z.ltb_spec (new_from_fd d) 0); [lia |].
  destruct (Z.ltb_spec (grabbed d) 0); [lia |].
  destruct (Z.ltb_spec (open_uinput d) 0); [lia |].
  destruct (Z.ltb_spec (create_uinput d) 0); [lia |].
  split; reflexivity.
Qed.

Lemma init_input_failed d :
  ~ input_ok d ->
  init_evdev_input d = inr EXIT_FAILURE \/
  (init_evdev_input d = inl 1 /\ init_evdev_virtual_input d = inr EXIT_FAILURE).
Proof.
  intros Hno. unfold init_evdev_input, init_evdev_virtual_input.
  destruct (Z.ltb_spec (open_event d) 0); [now left |].
  destruct (Z.ltb_spec (new_from_fd d) 0); [now left |].
  destruct (Z.ltb_spec (grabbed d) 0); [now left |].
  right. split; [reflexivity |].
  destruct (Z.ltb_spec (open_uinput d) 0); [reflexivity |].
  destruct (Z.ltb_spec (create_uinput d) 0); [reflexivity |].
  exfalso. apply Hno. unfold input_ok. lia.
Qed.

Lemma init_rtc_ok d : timer_ok d -> init_rtc d = None.
Proof.
  intros (H1 & H2 & H3). unfold init_rtc.
  destruct (Z.ltb_spec (open_rtc d) 0); [lia |].
  destruct (Z.ltb_spec (rtc_irqp_set d) 0); [lia |].
  destruct (Z.ltb_spec (rtc_pie_on d) 0); [lia | reflexivity].
Qed.

Lemma init_rtc_failed d : ~ timer_ok d -> init_rtc d = Some EXIT_FAILURE.
Proof.
  intros Hno. unfold init_rtc.
  destruct (Z.ltb_spec (open_rtc d) 0); [reflexivity |].
  destruct (Z.ltb_spec (rtc_irqp_set d) 0); [reflexivity |].
  destruct (Z.ltb_spec (rtc_pie_on d) 0); [reflexivity |].
  exfalso. apply Hno. unfold timer_ok. lia.
Qed.

(** What [sscanf] with [%d] makes of an argument. *)
Lemma read_delay_dec z var fallback :
  CInt.is_int z -> read_delay (Fmt.dec z) var fallback = z.
Proof.
  intros Hz. unfold read_delay, sscanf_d.
  rewrite <- (app_nil_r (list_ascii_of_string (Fmt.dec z))).
  rewrite ScanFacts.scan_d_dec by exact I.
  rewrite ScanFacts.store_int_id by exact Hz. reflexivity.
Qed.

Lemma read_delay_blank s var fallback :
  blank_arg s -> read_delay s var fallback = fallback.
Proof.
  intros Hs. unfold read_delay, sscanf_d.
  rewrite ScanFacts.scan_d_blank by exact Hs. reflexivity.
Qed.

Lemma read_delay_not_numeric s var fallback :
  not_numeric s -> read_delay s var fallback = var.
Proof.
  destruct s as [| c s]; [contradiction |]. intros (Hs & Hd & Hm & Hp).
  unfold read_delay, sscanf_d, Scan.scan_d. cbn [list_ascii_of_string Scan.skip_space].
  rewrite Hs, Hm, Hp. cbn [orb]. rewrite Hd. reflexivity.
Qed.

(** The default mean lies in a click range that is in order. *)
Lemma default_mu_legal lo hi :
  CInt.is_int lo -> CInt.is_int hi -> CInt.is_int (hi + lo) -> lo <= hi ->
  illegal_mu (default_mu lo hi) lo hi = false.
Proof.
  intros Hlo Hhi Hsum Hle. unfold illegal_mu, default_mu.
  rewrite CIntFacts.to_int_id by exact Hsum.
  unfold CInt.is_int, CInt.INT_MIN, CInt.INT_MAX, CInt.div in *.
  assert (lo <= (hi + lo) ÷ 2 <= hi) as Hq.
  { destruct (Z_le_gt_dec 0 (hi + lo)) as [Hpos | Hneg].
    - rewrite Z.quot_div_nonneg by lia.
      pose proof (Z.div_mod (hi + lo) 2 ltac:(lia)).
      pose proof (Z.mod_pos_bound (hi + lo) 2 ltac:(lia)). lia.
    - replace (hi + lo) with (- (- (hi + lo))) by lia.
      rewrite Z.quot_opp_l by lia. rewrite Z.quot_div_nonneg by lia.
      pose proof (Z.div_mod (- (hi + lo)) 2 ltac:(lia)).
      pose proof (Z.mod_pos_bound (- (hi + lo)) 2 ltac:(lia)). lia. }
  change (2 ^ 53) with 9007199254740992 in *.
  rewrite DblFacts.gt_of_Z, DblFacts.lt_of_Z
    by (change (2 ^ 53) with 9007199254740992; lia).
  destruct (Z.ltb_spec hi ((hi + lo) ÷ 2)); [lia |].
  destruct (Z.ltb_spec ((hi + lo) ÷ 2) lo); [lia | reflexivity].
Qed.

(** No mean lies in a click range whose bounds are swapped. *)
Lemma default_mu_swapped lo hi :
  CInt.is_int lo -> CInt.is_int hi -> hi < lo ->
  illegal_mu (default_mu lo hi) lo hi = true.
Proof.
  intros Hlo Hhi Hlt. unfold illegal_mu, default_mu.
  pose proof (CIntFacts.to_int_range (hi + lo)) as Hs.
  set (a := CInt.to_int (hi + lo)) in *.
  unfold CInt.is_int, CInt.INT_MIN, CInt.INT_MAX, CInt.div in *.
  assert (Z.abs (a ÷ 2) <= Z.abs a) as Hq.
  { destruct (Z_le_gt_dec 0 a) as [Hpos | Hneg].
    - rewrite Z.quot_div_nonneg by lia.
      pose proof (Z.div_mod a 2 ltac:(lia)).
      pose proof (Z.mod_pos_bound a 2 ltac:(lia)). lia.
    - replace a with (- (- a)) at 1 by lia.
      rewrite Z.quot_opp_l by lia. rewrite Z.quot_div_nonneg by lia.
      pose proof (Z.div_mod (- a) 2 ltac:(lia)).
      pose proof (Z.mod_pos_bound (- a) 2 ltac:(lia)). lia. }
  rewrite DblFacts.gt_of_Z, DblFacts.lt_of_Z
    by (change (2 ^ 53) with 9007199254740992; lia).
  destruct (Z.ltb_spec hi (a ÷ 2)); [reflexivity |].
  destruct (Z.ltb_spec (a ÷ 2) lo); [reflexivity | lia].
Qed.

(** A click range in order whose bounds add up to more than an [int]: the
    sum wraps, and the mean made of it lies outside the range. *)
Lemma default_mu_overflow lo hi :
  CInt.is_int lo -> CInt.is_int hi -> lo <= hi -> ~ CInt.is_int (hi + lo) ->
  illegal_mu (default_mu lo hi) lo hi = true.
Proof.
  intros Hlo Hhi Hle Hsum. unfold illegal_mu, default_mu.
  pose proof (CIntFacts.to_int_range (hi + lo)) as Hs.
  destruct (CIntFacts.to_int_eq (hi + lo)) as [k Hk].
  set (a := CInt.to_int (hi + lo)) in *.
  unfold CInt.is_int, CInt.INT_MIN, CInt.INT_MAX, CInt.div in *.
  assert (Z.abs (a ÷ 2) <= Z.abs a /\ (0 <= a -> 0 <= a ÷ 2) /\ (a <= 0 -> a ÷ 2 <= 0))
    as (Hq & Hpos & Hneg).
  { destruct (Z_le_gt_dec 0 a) as [H0 | H0].
    - rewrite Z.quot_div_nonneg by lia.
      pose proof (Z.div_mod a 2 ltac:(lia)).
      pose proof (Z.mod_pos_bound a 2 ltac:(lia)). lia.
    - assert (a ÷ 2 = - (- a / 2)) as ->.
      { replace a with (- (- a)) at 1 by lia.
        rewrite Z.quot_opp_l by lia. now rewrite Z.quot_div_nonneg by lia. }
      pose proof (Z.div_mod (- a) 2 ltac:(lia)).
      pose proof (Z.mod_pos_bound (- a) 2 ltac:(lia)). lia. }
  rewrite DblFacts.gt_of_Z, DblFacts.lt_of_Z
    by (change (2 ^ 53) with 9007199254740992; lia).
  destruct (Z.ltb_spec hi (a ÷ 2)); [reflexivity |].
  destruct (Z.ltb_spec (a ÷ 2) lo); [reflexivity |].
  exfalso. destruct (Z_le_gt_dec 0 a) as [Ha | Ha];
    [specialize (Hpos Ha) | specialize (Hneg ltac:(lia))]; lia.
Qed.

Section StartupFacts.

Variable sscanf_lf : string -> double -> double.

(** [main] started with the four delays and at most two more arguments. *)
Lemma main_startup_delays prog handle a2 a3 a4 a5 rest d d0 fs :
  input_ok d -> (length rest <= 2)%nat ->
  main_startup sscanf_lf (prog :: handle :: a2 :: a3 :: a4 :: a5 :: rest) d d0 fs
  = let min_click := read_delay a2 (-1) 0 in
    let max_click := read_delay a3 (-1) min_click in
    let min_move := read_delay a4 (-1) 0 in
    let max_move := read_delay a5 (-1) min_move in
    let dist := match rest with
                | a6 :: _ => pick_distribution a6 d0
                | [] => linear
                end in
    match main_fifo (prog :: handle :: a2 :: a3 :: a4 :: a5 :: rest) fs with
    | inr c => Stopped (Returned c) fs
    | inl (path, fs1, th) =>
        if illegal_mu (default_mu min_click max_click) min_click max_click
        then Stopped (Returned 1) fs1
        else match init_rtc d with
             | Some c => Stopped (Exited c) fs1
             | None =>
                 Ready (Config min_click max_click min_move max_move dist
                               (default_mu min_click max_click)
                               (default_sigma (default_mu min_click max_click)))
                       fs1 path th
             end
    end.
Proof.
  intros Hd Hlen. destruct (init_input_ok d Hd) as [Hin Hvirt].
  unfold main_startup. rewrite Hin, Hvirt.
  destruct rest as [| a6 [| a7 [| a8 rest]]]; [| | | cbn in Hlen; lia]; reflexivity.
Qed.

End StartupFacts.

Lemma main_fifo_short (argv : list string) (fs : gmap string node) :
  (length argv <= 7)%nat -> main_fifo argv fs = inl (None, fs, false).
Proof.
  intros Hlen. unfold main_fifo.
  destruct (Z.gtb_spec (Z.of_nat (length argv)) 7); [lia | reflexivity].
Qed.

Lemma main_fifo_created (argv : list string) (fs : gmap string node) :
  (7 < length argv)%nat -> argv !! 7%nat = Some "none" -> fs !! "none" <> Some Dir ->
  main_fifo argv fs = inl (Some "none", <["none" := Fifo]> fs, true).
Proof.
  intros Hlen Harg Hfree. unfold main_fifo. rewrite Harg.
  destruct (Z.gtb_spec (Z.of_nat (length argv)) 7) as [_ | Hle]; [| lia].
  unfold strcmp. cbn [String.eqb Ascii.eqb Bool.eqb Z.eqb].
  unfold init_fifo, unlink, mkfifo.
  destruct (fs !! "none") as [[t | |] |] eqn:Hn; [| | contradiction |];
    rewrite ?lookup_delete_eq; cbn; rewrite ?insert_delete_eq; reflexivity.
Qed.

Ltac side :=
  unfold CInt.is_int, CInt.INT_MIN, CInt.INT_MAX, input_ok, timer_ok, working,
         no_input, no_timer;
  cbn; lia.

Section StartupTheorems.

Variable sscanf_lf : string -> double -> double.

(** X15.  Started with the four delays written as decimal numbers, each an
    [int], the click range in order and the sum of its bounds an [int] too
    ([main] adds them for the mean), with the input device, its clone and the
    timer set up, [main] reaches its loop with exactly these delays, the
    linear distribution, the mean of the click range as [mu] and no FIFO.
    The move range is taken as it comes, in order or not. *)
Theorem startup_with_delays :
  forall (prog handle : string) (a b c d : Z) (dv : devices) (d0 : ascii)
         (fs : gmap string node),
    CInt.is_int a -> CInt.is_int b -> CInt.is_int c -> CInt.is_int d ->
    CInt.is_int (b + a) -> a <= b ->
    input_ok dv -> timer_ok dv ->
    main_startup sscanf_lf
      [prog; handle; Fmt.dec a; Fmt.dec b; Fmt.dec c; Fmt.dec d] dv d0 fs
    = Ready (Config a b c d linear (default_mu a b) (default_sigma (default_mu a b)))
            fs None false.
Proof.
  intros prog handle a b c d dv d0 fs Ha Hb Hc Hd Hsum Hle Hin Htimer.
  rewrite main_startup_delays by (exact Hin || (cbn; lia)).
  rewrite main_fifo_short by (cbn; lia). cbv zeta.
  rewrite !read_delay_dec by assumption.
  rewrite default_mu_legal by assumption.
  rewrite init_rtc_ok by exact Htimer. reflexivity.
Qed.

(** X16.  A click range given with its bounds swapped is refused: [main]
    returns 1 before the timer is opened. *)
Theorem startup_rejects_swapped_clicks :
  forall (prog handle : string) (a b c d : Z) (dv : devices) (d0 : ascii)
         (fs : gmap string node),
    CInt.is_int a -> CInt.is_int b -> CInt.is_int c -> CInt.is_int d ->
    b < a -> input_ok dv ->
    main_startup sscanf_lf
      [prog; handle; Fmt.dec a; Fmt.dec b; Fmt.dec c; Fmt.dec d] dv d0 fs
    = Stopped (Returned 1) fs.
Proof.
  intros prog handle a b c d dv d0 fs Ha Hb Hc Hd Hlt Hin.
  rewrite main_startup_delays by (exact Hin || (cbn; lia)).
  rewrite main_fifo_short by (cbn; lia). cbv zeta.
  rewrite !read_delay_dec by assumption.
  rewrite default_mu_swapped by assumption. reflexivity.
Qed.

(** X24.  A click range in order is refused all the same when its bounds
    add up to more than an [int] holds: the sum [main] takes the mean from
    wraps around, the mean falls outside the range, and [main] returns 1. *)
Theorem startup_rejects_large_clicks :
  forall (prog handle : string) (a b c d : Z) (dv : devices) (d0 : ascii)
         (fs : gmap string node),
    CInt.is_int a -> CInt.is_int b -> CInt.is_int c -> CInt.is_int d ->
    a <= b -> ~ CInt.is_int (b + a) -> input_ok dv ->
    main_startup sscanf_lf
      [prog; handle; Fmt.dec a; Fmt.dec b; Fmt.dec c; Fmt.dec d] dv d0 fs
    = Stopped (Returned 1) fs.
Proof.
  intros prog handle a b c d dv d0 fs Ha Hb Hc Hd Hle Hsum Hin.
  rewrite main_startup_delays by (exact Hin || (cbn; lia)).
  rewrite main_fifo_short by (cbn; lia). cbv zeta.
  rewrite !read_delay_dec by assumption.
  rewrite default_mu_overflow by assumption. reflexivity.
Qed.

(** X17.  Of the distribution argument only the first character counts: the
    distribution is normal exactly when it is [n]. *)
Theorem startup_distribution_letter :
  forall (prog handle : string) (a b c d : Z) (ch : ascii) (more : string)
         (dv : devices) (d0 : ascii) (fs : gmap string node),
    CInt.is_int a -> CInt.is_int b -> CInt.is_int c -> CInt.is_int d ->
    CInt.is_int (b + a) -> a <= b ->
    input_ok dv -> timer_ok dv ->
    main_startup sscanf_lf
      [prog; handle; Fmt.dec a; Fmt.dec b; Fmt.dec c; Fmt.dec d; String ch more] dv d0 fs
    = Ready (Config a b c d (if Ascii.eqb ch "n" then normal else linear)
                    (default_mu a b) (default_sigma (default_mu a b)))
            fs None false.
Proof.
  intros prog handle a b c d ch more dv d0 fs Ha Hb Hc Hd Hsum Hle Hin Htimer.
  rewrite main_startup_delays by (exact Hin || (cbn; lia)).
  rewrite main_fifo_short by (cbn; lia). cbv zeta.
  rewrite !read_delay_dec by assumption.
  rewrite default_mu_legal by assumption.
  rewrite init_rtc_ok by exact Htimer.
  unfold pick_distribution.
  destruct (Ascii.eqb_spec ch "l") as [-> |]; reflexivity.
Qed.

(** X18.  Delay arguments that are no numbers are not refused: [sscanf]
    converts nothing, every delay keeps its initial value -1 and [main]
    reaches its loop with it. *)
Theorem startup_non_numeric_delays :
  forall (prog handle a2 a3 a4 a5 : string) (dv : devices) (d0 : ascii)
         (fs : gmap string node),
    not_numeric a2 -> not_numeric a3 -> not_numeric a4 -> not_numeric a5 ->
    input_ok dv -> timer_ok dv ->
    main_startup sscanf_lf [prog; handle; a2; a3; a4; a5] dv d0 fs
    = Ready (Config (-1) (-1) (-1) (-1) linear (default_mu (-1) (-1))
                    (default_sigma (default_mu (-1) (-1))))
            fs None false.
Proof.
  intros prog handle a2 a3 a4 a5 dv d0 fs H2 H3 H4 H5 Hin Htimer.
  rewrite main_startup_delays by (exact Hin || (cbn; lia)).
  rewrite main_fifo_short by (cbn; lia). cbv zeta.
  rewrite !read_delay_not_numeric by assumption.
  rewrite default_mu_legal by side.
  rewrite init_rtc_ok by exact Htimer. reflexivity.
Qed.

(** X19.  A maximum given as an empty or blank argument takes the value of
    its minimum: both delays are constant. *)
Theorem startup_blank_maxima :
  forall (prog handle blank1 blank2 : string) (a c : Z) (dv : devices) (d0 : ascii)
         (fs : gmap string node),
    CInt.is_int a -> CInt.is_int c -> CInt.is_int (a + a) ->
    blank_arg blank1 -> blank_arg blank2 ->
    input_ok dv -> timer_ok dv ->
    main_startup sscanf_lf
      [prog; handle; Fmt.dec a; blank1; Fmt.dec c; blank2] dv d0 fs
    = Ready (Config a a c c linear (default_mu a a) (default_sigma (default_mu a a)))
            fs None false.
Proof.
  intros prog handle blank1 blank2 a c dv d0 fs Ha Hc Hsum H1 H2 Hin Htimer.
  rewrite main_startup_delays by (exact Hin || (cbn; lia)).
  rewrite main_fifo_short by (cbn; lia). cbv zeta.
  rewrite !read_delay_dec by assumption.
  rewrite !read_delay_blank by assumption.
  rewrite default_mu_legal by (assumption || lia).
  rewrite init_rtc_ok by exact Htimer. reflexivity.
Qed.

(** X20.  The usage check lets three to five arguments pass although four
    delays are read: [sscanf] is then handed an argument beyond the end of
    [argv], and what [main] does is not defined. *)
Theorem startup_too_few_delays :
  forall (argv : list string) (dv : devices) (d0 : ascii) (fs : gmap string node),
    (3 <= length argv <= 5)%nat -> input_ok dv ->
    main_startup sscanf_lf argv dv d0 fs = Stopped Undefined fs.
Proof.
  intros argv dv d0 fs Hlen Hin. destruct (init_input_ok dv Hin) as [H1 H2].
  unfold main_startup. rewrite H1, H2.
  destruct argv as [| a0 [| a1 [| a2 [| a3 [| a4 [| a5 argv]]]]]];
    cbn in Hlen; try lia; reflexivity.
Qed.

(** X21.  When the input device or its clone cannot be set up the program
    exits with status 1 whatever the delays are, before it reads them and
    before it creates a FIFO. *)
Theorem startup_device_failure :
  forall (argv : list string) (dv : devices) (d0 : ascii) (fs : gmap string node),
    (2 < length argv)%nat -> ~ input_ok dv ->
    main_startup sscanf_lf argv dv d0 fs = Stopped (Exited EXIT_FAILURE) fs.
Proof.
  intros argv dv d0 fs Hlen Hno. unfold main_startup.
  destruct (Z.leb_spec (Z.of_nat (length argv)) 2); [lia |].
  destruct (init_input_failed dv Hno) as [-> | [-> ->]]; reflexivity.
Qed.

(** X22.  When the timer cannot be set up the program exits with status 1
    after the FIFO was created: the FIFO stays in the file system. *)
Theorem timer_failure_leaves_fifo :
  forall (prog handle a6 : string) (a b c d : Z) (dv : devices) (d0 : ascii)
         (fs : gmap string node),
    CInt.is_int a -> CInt.is_int b -> CInt.is_int c -> CInt.is_int d ->
    CInt.is_int (b + a) -> a <= b ->
    input_ok dv -> ~ timer_ok dv -> fs !! "none" <> Some Dir ->
    main_startup sscanf_lf
      [prog; handle; Fmt.dec a; Fmt.dec b; Fmt.dec c; Fmt.dec d; a6; "none"] dv d0 fs
    = Stopped (Exited EXIT_FAILURE) (<["none" := Fifo]> fs).
Proof.
  intros prog handle a6 a b c d dv d0 fs Ha Hb Hc Hd Hsum Hle Hin Htimer Hfree.
  rewrite main_startup_delays by (exact Hin || (cbn; lia)).
  rewrite main_fifo_created by (exact Hfree || reflexivity || (cbn; lia)). cbv zeta.
  rewrite !read_delay_dec by assumption.
  rewrite default_mu_legal by assumption.
  rewrite init_rtc_failed by exact Htimer. reflexivity.
Qed.

(** X23.  A mean given without a standard deviation: with nine arguments
    [main] reads [argv[9]], the null pointer that ends the vector, and what
    it does is not defined. *)
Theorem mu_without_sigma :
  forall (prog handle a2 a3 a4 a5 a6 a7 a8 : string) (dv : devices) (d0 : ascii)
         (fs : gmap string node),
    a7 <> "none" -> input_ok dv ->
    main_startup sscanf_lf [prog; handle; a2; a3; a4; a5; a6; a7; a8] dv d0 fs
    = Stopped Undefined fs.
Proof.
  intros prog handle a2 a3 a4 a5 a6 a7 a8 dv d0 fs Hne Hin.
  destruct (init_input_ok dv Hin) as [H1 H2].
  unfold main_startup. rewrite H1, H2.
  rewrite (main_fifo_other_path _ fs a7) by (reflexivity || exact Hne).
  reflexivity.
Qed.

End StartupTheorems.

Lemma startup_with_delays_witness :
  main_startup unconverted
    ["latency_daemon"; "/dev/input/event5"; Fmt.dec 10; Fmt.dec 20; Fmt.dec 5; Fmt.dec 1]
    working "x" ∅
  = Ready (Config 10 20 5 1 linear (default_mu 10 20) (default_sigma (default_mu 10 20)))
          ∅ None false.
Proof.
  apply (startup_with_delays unconverted "latency_daemon" "/dev/input/event5"
           10 20 5 1 working "x" ∅); side.
Defined.

Lemma startup_rejects_swapped_clicks_witness :
  main_startup unconverted
    ["latency_daemon"; "/dev/input/event5"; Fmt.dec 20; Fmt.dec 10; Fmt.dec 0; Fmt.dec 0]
    working "x" ∅
  = Stopped (Returned 1) ∅.
Proof.
  apply (startup_rejects_swapped_clicks unconverted "latency_daemon" "/dev/input/event5"
           20 10 0 0 working "x" ∅); side.
Defined.

Lemma startup_rejects_large_clicks_witness :
  main_startup unconverted
    ["latency_daemon"; "/dev/input/event5"; Fmt.dec 1500000000; Fmt.dec 1500000000;
     Fmt.dec 0; Fmt.dec 0]
    working "x" ∅
  = Stopped (Returned 1) ∅.
Proof.
  apply (startup_rejects_large_clicks unconverted "latency_daemon" "/dev/input/event5"
           1500000000 1500000000 0 0 working "x" ∅); side.
Defined.

Lemma startup_distribution_letter_witness :
  main_startup unconverted
    ["latency_daemon"; "/dev/input/event5"; Fmt.dec 10; Fmt.dec 20; Fmt.dec 0; Fmt.dec 0;
     String "n" "ope"]
    working "x" ∅
  = Ready (Config 10 20 0 0 (if Ascii.eqb "n" "n" then normal else linear)
                  (default_mu 10 20) (default_sigma (default_mu 10 20)))
          ∅ None false.
Proof.
  apply (startup_distribution_letter unconverted "latency_daemon" "/dev/input/event5"
           10 20 0 0 "n" "ope" working "x" ∅); side.
Defined.

Lemma startup_non_numeric_delays_witness :
  main_startup unconverted
    ["latency_daemon"; "/dev/input/event5"; "ten"; "twenty"; "x"; "y"] working "x" ∅
  = Ready (Config (-1) (-1) (-1) (-1) linear (default_mu (-1) (-1))
                  (default_sigma (default_mu (-1) (-1))))
          ∅ None false.
Proof.
  apply (startup_non_numeric_delays unconverted "latency_daemon" "/dev/input/event5"
           "ten" "twenty" "x" "y" working "x" ∅);
    try side; cbn; repeat split.
Defined.

Lemma startup_blank_maxima_witness :
  main_startup unconverted
    ["latency_daemon"; "/dev/input/event5"; Fmt.dec 30; " "; Fmt.dec 4; EmptyString]
    working "x" ∅
  = Ready (Config 30 30 4 4 linear (default_mu 30 30) (default_sigma (default_mu 30 30)))
          ∅ None false.
Proof.
  apply (startup_blank_maxima unconverted "latency_daemon" "/dev/input/event5"
           " " EmptyString 30 4 working "x" ∅);
    try side; unfold blank_arg, Message.blank; cbn; repeat constructor.
Defined.

Lemma startup_too_few_delays_witness :
  main_startup unconverted ["latency_daemon"; "/dev/input/event5"; "10"] working "x" ∅
  = Stopped Undefined ∅.
Proof.
  apply (startup_too_few_delays unconverted
           ["latency_daemon"; "/dev/input/event5"; "10"] working "x" ∅); side.
Defined.

Lemma startup_device_failure_witness :
  main_startup unconverted ["latency_daemon"; "/dev/input/event5"; "10"] no_input "x" ∅
  = Stopped (Exited EXIT_FAILURE) ∅.
Proof.
  apply (startup_device_failure unconverted
           ["latency_daemon"; "/dev/input/event5"; "10"] no_input "x" ∅); side.
Defined.

Lemma timer_failure_leaves_fifo_witness :
  main_startup unconverted
    ["latency_daemon"; "/dev/input/event5"; Fmt.dec 10; Fmt.dec 20; Fmt.dec 0; Fmt.dec 0;
     "l"; "none"]
    no_timer "x" ∅
  = Stopped (Exited EXIT_FAILURE) (<["none" := Fifo]> ∅).
Proof.
  apply (timer_failure_leaves_fifo unconverted "latency_daemon" "/dev/input/event5" "l"
           10 20 0 0 no_timer "x" ∅); try side.
  rewrite lookup_empty. discriminate.
Defined.

Lemma mu_without_sigma_witness :
  main_startup unconverted
    ["latency_daemon"; "/dev/input/event5"; "10"; "20"; "0"; "0"; "n"; "fifo"; "15"]
    working "x" ∅
  = Stopped Undefined ∅.
Proof.
  apply (mu_without_sigma unconverted "latency_daemon" "/dev/input/event5"
           "10" "20" "0" "0" "n" "fifo" "15" working "x" ∅); [discriminate | side].
Defined.
